(** * Northwind microserver: a shallow embedding of [python-microserver/main.py]

    The service is a thin FastAPI layer over SQLAlchemy.  The embedding keeps
    the control flow of every path operation of [main.py] (membership test,
    [try]/[except] structure, the order of the collaborator calls) and
    replaces the collaborators (inspector, automap, session) by a small
    executable model driven by an environment record. *)

From stdpp Require Import gmap strings list pretty.
From Stdlib Require Import ZArith Lia.

Open Scope Z_scope.

(** ** Python values that can sit in a column *)

(** A [str] is a sequence of code points; [bytes] and [bytearray] are
    sequences of integers (bytes are the ones in [0, 256)). *)
Inductive value : Type :=
| VNone
| VBool (b : bool)
| VInt (z : Z)
| VStr (text : list Z)
| VBytes (payload : list Z)
| VByteArray (payload : list Z)
| VOpaque (repr : string).   (* date, Decimal, float, ...: carried as is *)

#[global] Instance value_eq_dec : EqDecision value.
Proof. solve_decision. Defined.

(** Text of an identifier or of a message, as a [str] value. *)
Definition text_of (s : string) : list Z :=
  (fun a => Z.of_nat (Ascii.nat_of_ascii a)) <$> String.list_ascii_of_string s.

(** ** [bytes.decode('utf-8', errors='ignore')]

    The decoder of CPython, with the [ignore] error handler folded in: an
    invalid start byte drops one byte, an invalid continuation drops the
    bytes read so far, an incomplete sequence at the end of the input drops
    the rest. *)
Module Utf8.

Definition is_continuation (b : Z) : bool := (0x80 <=? b) && (b <? 0xC0).

Fixpoint decode_ignore (s : list Z) : list Z :=
  match s with
  | [] => []
  | ch :: s1 =>
    if (0 <=? ch) && (ch <? 0x80) then ch :: decode_ignore s1
    else if ch <? 0xC2 then decode_ignore s1            (* invalid start byte *)
    else if ch <? 0xE0 then
      match s1 with
      | [] => []                                        (* unexpected end of data *)
      | ch2 :: s2 =>
        if is_continuation ch2
        then (ch * 64 + ch2 - (0xC0 * 64 + 0x80)) :: decode_ignore s2
        else decode_ignore s1
      end
    else if ch <? 0xF0 then
      match s1 with
      | [] => []
      | ch2 :: s2 =>
        if negb (is_continuation ch2)
           || (if ch2 <? 0xA0 then ch =? 0xE0 else ch =? 0xED)
        then decode_ignore s1
        else
          match s2 with
          | [] => []
          | ch3 :: s3 =>
            if is_continuation ch3
            then (ch * 4096 + ch2 * 64 + ch3
                  - (0xE0 * 4096 + 0x80 * 64 + 0x80)) :: decode_ignore s3
            else decode_ignore s2
          end
      end
    else if ch <? 0xF5 then
      match s1 with
      | [] => []
      | ch2 :: s2 =>
        if negb (is_continuation ch2)
           || (if ch2 <? 0x90 then ch =? 0xF0 else ch =? 0xF4)
        then decode_ignore s1
        else
          match s2 with
          | [] => []
          | ch3 :: s3 =>
            if negb (is_continuation ch3) then decode_ignore s2
            else
              match s3 with
              | [] => []
              | ch4 :: s4 =>
                if is_continuation ch4
                then (ch * 262144 + ch2 * 4096 + ch3 * 64 + ch4
                      - (0xF0 * 262144 + 0x80 * 4096 + 0x80 * 64 + 0x80))
                     :: decode_ignore s4
                else decode_ignore s3
              end
          end
      end
    else decode_ignore s1                               (* invalid start byte *)
  end.

(** Unicode scalar values: the code points a [str] decoded from UTF-8 holds. *)
Definition scalar (cp : Z) : Prop :=
  0 <= cp < 0xD800 \/ 0xE000 <= cp < 0x110000.

(** The encoder, used to say which byte sequences are valid UTF-8. *)
Definition encode_char (cp : Z) : list Z :=
  if cp <? 0x80 then [cp]
  else if cp <? 0x800 then [0xC0 + cp / 64; 0x80 + cp mod 64]
  else if cp <? 0x10000 then
    [0xE0 + cp / 4096; 0x80 + (cp / 64) mod 64; 0x80 + cp mod 64]
  else
    [0xF0 + cp / 262144; 0x80 + (cp / 4096) mod 64;
     0x80 + (cp / 64) mod 64; 0x80 + cp mod 64].

Definition encode (text : list Z) : list Z := text ≫= encode_char.

End Utf8.

(** ** Rows and the row serializer *)

(** A mapped instance, seen through [getattr]/[hasattr]/[setattr]: a finite
    map from attribute names to values. *)
Abbreviation Row := (gmap string value).

(** [getattr(row, col, None)] *)
Definition getattr (row : Row) (col : string) (default : value) : value :=
  match row !! col with
  | Some v => v
  | None => default
  end.

Definition hasattr (row : Row) (key : string) : bool :=
  bool_decide (is_Some (row !! key)).

Definition setattr (row : Row) (key : string) (v : value) : Row :=
  <[key := v]> row.

(** One turn of the loop of [serialize_row]. *)
Definition serialize_cell (row : Row) (result : gmap string value) (col : string)
  : gmap string value :=
  let value := getattr row col VNone in
  match value with
  | VNone => <[col := VNone]> result
  | VBytes payload | VByteArray payload =>
      <[col := VStr (Utf8.decode_ignore payload)]> result
  | _ => <[col := value]> result
  end.

Definition serialize_row (row : Row) (columns : list string) : gmap string value :=
  foldl (serialize_cell row) ∅ columns.

(** ** Exceptions and responses *)

(** The exceptions the path operations can meet.  [Exception] stands for
    every exception that is not an [HTTPException] (database errors,
    [TypeError] of a constructor, ...), with its [str()] text. *)
Inductive exn : Type :=
| HTTPException (status_code : Z) (detail : string)
| RequestValidationError (errors : list string)
| Exception (text : string).

(** [str(e)] *)
Definition str (e : exn) : string :=
  match e with
  | HTTPException status_code detail => pretty status_code +:+ ": " +:+ detail
  | RequestValidationError errors => String.concat ", " errors
  | Exception text => text
  end.

(** [inspector.get_columns] and [inspector.get_foreign_keys] entries. *)
Record column_info : Type := ColumnInfo {
  col_name : string;
  col_type : string;
  col_nullable : bool
}.

Record foreign_key : Type := ForeignKey {
  fk_constrained_columns : list string;
  fk_referred_table : string;
  fk_referred_columns : list string
}.

(** The [data=] argument of each [GenericResponse(...)] of [main.py]. *)
Inductive payload : Type :=
| DataStatus (version : string) (tables : list string)
| DataTables (tables : list string)
| DataSchema (table_name : string) (columns : list column_info)
             (primary_keys : list string) (foreign_keys : list foreign_key)
| DataPage (table : string) (items : list (gmap string value)) (skip limit : Z)
| DataRecord (record : gmap string value)
| DataDeleted (deleted_id : string).

(** [schemas.GenericResponse] *)
Record GenericResponse : Type := mkGenericResponse {
  success : bool;
  message : string;
  data : option payload;
  error : option string
}.

(** Body of an HTTP response.  No exception handler is registered in
    [main.py], so an [HTTPException] is rendered by the framework as
    [{"detail": ...}], a validation error as [{"detail": [...]}], and any
    other exception as the plain text of a 500. *)
Inductive body : Type :=
| Envelope (r : GenericResponse)
| Detail (detail : string)
| DetailList (errors : list string)
| PlainText (text : string).

Record http_response : Type := HttpResponse {
  status : Z;
  content : body
}.

(** Top-level keys of the JSON object a body is. *)
Definition body_keys (b : body) : list string :=
  match b with
  | Envelope _ => ["success"; "message"; "data"; "error"]
  | Detail _ | DetailList _ => ["detail"]
  | PlainText _ => []
  end.

Definition envelope_shape (b : body) : Prop :=
  body_keys b = ["success"; "message"; "data"; "error"].

#[global] Instance envelope_shape_dec b : Decision (envelope_shape b).
Proof. unfold envelope_shape. apply _. Defined.

(** ** The collaborators: catalog, automap and session *)

(** Calls that leave the process, in the order they are attempted. *)
Inductive call : Type :=
| InspectTableNames
| InspectColumns (t : string)
| InspectPk (t : string)
| InspectFks (t : string)
| Automap (t : string)
| QueryAll (t : string) (offset limit : Z)
| QueryFirst (t col : string) (v : string)
| Construct (t : string)
| SessionAdd (t : string)
| SessionDelete (t : string)
| Commit
| Refresh (t : string)
| Rollback.

#[global] Instance call_eq_dec : EqDecision call.
Proof. solve_decision. Defined.

(** What the database and the libraries answer.  [fault c = Some text] makes
    call [c] raise an exception whose [str()] is [text]. *)
Record Env : Type := mkEnv {
  get_table_names : list string;
  get_columns : string -> list column_info;
  get_pk_constraint : string -> option (list string);
  get_foreign_keys : string -> list foreign_key;
  automap_classes : string -> bool;
  sql_eq : value -> string -> bool;
  server_defaults : string -> Row -> Row;
  fault : call -> option string
}.

(** A change held by the session until [commit]. *)
Inductive change : Type :=
| Insert (t : string) (r : Row)
| SetField (t : string) (pos : nat) (key : string) (v : value)
| DeleteRow (t : string) (pos : nat).

(** The process and its database.  [trace] has the newest call first. *)
Record World : Type := mkWorld {
  AVAILABLE_TABLES : list string;
  database : gmap string (list Row);
  pending : list change;
  trace : list call
}.

Definition set_tables (ts : list string) (w : World) : World :=
  mkWorld ts (database w) (pending w) (trace w).
Definition set_database (d : gmap string (list Row)) (w : World) : World :=
  mkWorld (AVAILABLE_TABLES w) d (pending w) (trace w).
Definition set_pending (p : list change) (w : World) : World :=
  mkWorld (AVAILABLE_TABLES w) (database w) p (trace w).
Definition log_call (c : call) (w : World) : World :=
  mkWorld (AVAILABLE_TABLES w) (database w) (pending w) (c :: trace w).

(** Line 30 of [main.py]: the table list before startup. *)
Definition boot (d : gmap string (list Row)) : World := mkWorld [] d [] [].

Definition rows_of (d : gmap string (list Row)) (t : string) : list Row :=
  default [] (d !! t).

(** A mapped instance attached to the session: its table, the place of its
    row in the table, and its attributes. *)
Record Item : Type := mkItem {
  item_table : string;
  item_pos : nat;
  attrs : Row
}.

Definition with_attrs (it : Item) (r : Row) : Item :=
  mkItem (item_table it) (item_pos it) r.

Definition instances (t : string) (rows : list Row) : list Item :=
  imap (mkItem t) rows.

(** ** The monad of the path operations: state and exceptions *)

Definition M (A : Type) : Type := World -> (A + exn) * World.

#[global] Instance M_ret : MRet M := fun A a w => (inl a, w).
#[global] Instance M_bind : MBind M := fun A B k m w =>
  match m w with
  | (inl a, w') => k a w'
  | (inr e, w') => (inr e, w')
  end.

Definition raise {A : Type} (e : exn) : M A := fun w => (inr e, w).

(** [try: body except ...: handler] *)
Definition try_except {A : Type} (body : M A) (handler : exn -> M A) : M A :=
  fun w =>
    match body w with
    | (inr e, w') => handler e w'
    | r => r
    end.

(** [for x in xs: acc = step acc x], with effects. *)
Fixpoint for_each {A B : Type} (step : A -> B -> M A) (acc : A) (xs : list B) : M A :=
  match xs with
  | [] => mret acc
  | x :: xs' => acc' ← step acc x; for_each step acc' xs'
  end.

Definition gets {A : Type} (f : World -> A) : M A := fun w => (inl (f w), w).
Definition modify (f : World -> World) : M unit := fun w => (inl tt, f w).

(** [config.API_VERSION] *)
Definition API_VERSION : string := "1.0.0".

Section Service.

Context (env : Env).

(** A call to a collaborator: it is recorded, and raises when the
    environment says so. *)
Definition external (c : call) : M unit := fun w =>
  match fault env c with
  | Some text => (inr (Exception text), log_call c w)
  | None => (inl tt, log_call c w)
  end.

(** *** Inspector *)

Definition inspector_get_table_names : M (list string) :=
  external InspectTableNames;; mret (get_table_names env).

Definition inspector_get_columns (table_name : string) : M (list column_info) :=
  external (InspectColumns table_name);; mret (get_columns env table_name).

Definition inspector_get_pk_constraint (table_name : string) : M (option (list string)) :=
  external (InspectPk table_name);; mret (get_pk_constraint env table_name).

Definition inspector_get_foreign_keys (table_name : string) : M (list foreign_key) :=
  external (InspectFks table_name);; mret (get_foreign_keys env table_name).

(** *** [models.py] *)

Definition get_all_tables : M (list string) := inspector_get_table_names.

(** [getattr(AutoBase.classes, table_name, None)] after [AutoBase.prepare];
    the class is named by its table. *)
Definition get_model_class (table_name : string) : M (option string) :=
  external (Automap table_name);;
  mret (if automap_classes env table_name then Some table_name else None).

(** *** Session *)

Definition apply_change (d : gmap string (list Row)) (c : change)
  : gmap string (list Row) :=
  match c with
  | Insert t r => <[t := rows_of d t ++ [server_defaults env t r]]> d
  | SetField t pos key v =>
      <[t := alter (fun r => setattr r key v) pos (rows_of d t)]> d
  | DeleteRow t pos => <[t := delete pos (rows_of d t)]> d
  end.

Definition flush (w : World) : World :=
  set_pending [] (set_database (foldl apply_change (database w) (pending w)) w).

Definition record (c : change) : M unit :=
  modify (fun w => set_pending (pending w ++ [c]) w).

(** The filter [filter_by] builds for column [col], on one instance. *)
Definition matches (col v : string) (it : Item) : bool :=
  match attrs it !! col with
  | Some x => sql_eq env x v
  | None => false
  end.

(** [db.query(model).offset(skip).limit(limit).all()] *)
Definition db_query_all (model : string) (skip limit : Z) : M (list Item) :=
  external (QueryAll model skip limit);;
  d ← gets database;
  mret (take (Z.to_nat limit) (drop (Z.to_nat skip) (instances model (rows_of d model)))).

(** [db.query(model).filter_by(...).first()] with the filter on [col] *)
Definition db_query_first (model col v : string) : M (option Item) :=
  external (QueryFirst model col v);;
  d ← gets database;
  mret (List.find (matches col v) (instances model (rows_of d model))).

(** The call of [model_class] on the keywords of [item_data]: the new instance will take the next place of
    its table. *)
Definition construct (model : string) (item_data : list (string * value)) : M Item :=
  external (Construct model);;
  d ← gets database;
  mret (mkItem model (length (rows_of d model)) (list_to_map item_data)).

Definition db_add (it : Item) : M unit :=
  external (SessionAdd (item_table it));;
  record (Insert (item_table it) (attrs it)).

Definition db_delete (it : Item) : M unit :=
  external (SessionDelete (item_table it));;
  record (DeleteRow (item_table it) (item_pos it)).

Definition db_commit : M unit := external Commit;; modify flush.

(** [db.rollback()] discards the unit of work. *)
Definition db_rollback : M unit :=
  modify (fun w => set_pending [] (log_call Rollback w)).

(** [db.refresh(it)]: the attributes are read again from the database. *)
Definition db_refresh (it : Item) : M Item :=
  external (Refresh (item_table it));;
  d ← gets database;
  match rows_of d (item_table it) !! item_pos it with
  | Some r => mret (with_attrs it r)
  | None => raise (Exception "Could not refresh instance")
  end.

(** [setattr] on an attached instance: the session sees the change. *)
Definition instance_setattr (it : Item) (key : string) (v : value) : M Item :=
  record (SetField (item_table it) (item_pos it) key v);;
  mret (with_attrs it (setattr (attrs it) key v)).

(** [database.get_db]: one session per request, closed on every exit. *)
Definition get_db {A : Type} (endpoint : M A) : M A := fun w =>
  let '(r, w') := endpoint (set_pending [] w) in (r, set_pending [] w').

(** *** Helpers of [main.py] *)

Definition get_table_columns (table_name : string) : M (list string) :=
  columns ← inspector_get_columns table_name;
  mret (col_name <$> columns).

Definition get_primary_keys (table_name : string) : M (list string) :=
  pk ← inspector_get_pk_constraint table_name;
  mret (default [] pk).

Definition table_not_found {A : Type} (table_name : string) : M A :=
  raise (HTTPException 404 ("Table '" +:+ table_name +:+ "' not found")).

Definition model_not_loaded {A : Type} (table_name : string) : M A :=
  raise (HTTPException 404
           ("Could not load model for table '" +:+ table_name +:+ "'")).

Definition no_primary_key {A : Type} (table_name : string) : M A :=
  raise (HTTPException 400 ("Table '" +:+ table_name +:+ "' has no primary key")).

(** *** Startup and metadata *)

Definition startup_event : M unit :=
  try_except
    (tables ← get_all_tables;
     modify (set_tables tables))
    (fun e => mret tt).

Definition root : M GenericResponse :=
  tables ← gets AVAILABLE_TABLES;
  mret (mkGenericResponse true "Northwind Microserver API is running"
          (Some (DataStatus API_VERSION tables)) None).

Definition list_tables : M GenericResponse :=
  tables ← gets AVAILABLE_TABLES;
  mret (mkGenericResponse true
          ("Found " +:+ pretty (length tables) +:+ " tables")
          (Some (DataTables tables)) None).

Definition get_table_schema_try (table_name : string) : M GenericResponse :=
  columns ← inspector_get_columns table_name;
  pk ← inspector_get_pk_constraint table_name;
  fk ← inspector_get_foreign_keys table_name;
  mret (mkGenericResponse true
          ("Schema for table '" +:+ table_name +:+ "'")
          (Some (DataSchema table_name columns (default [] pk) fk)) None).

Definition get_table_schema (table_name : string) : M GenericResponse :=
  tables ← gets AVAILABLE_TABLES;
  if bool_decide (table_name ∉ tables) then table_not_found table_name
  else
    try_except (get_table_schema_try table_name)
      (fun e => raise (HTTPException 500 (str e))).

(** *** Dynamic CRUD endpoints *)

(** [Query(default, ge=..., le=...)]: the supplied value, or the default,
    checked against the bounds before the function body runs. *)
Definition Query (name : string) (dflt : Z) (ge le : option Z)
    (supplied : option Z) : Z + list string :=
  let v := default dflt supplied in
  if from_option (fun b => b <=? v) true ge
  then if from_option (fun b => v <=? b) true le
       then inl v
       else inr [name +:+ ": Input should be less than or equal to "
                   +:+ pretty (default 0 le)]
  else inr [name +:+ ": Input should be greater than or equal to "
              +:+ pretty (default 0 ge)].

Definition errors_of (r : Z + list string) : list string :=
  match r with
  | inl _ => []
  | inr errors => errors
  end.

Definition read_items_try (table_name : string) (skip limit : Z) : M GenericResponse :=
  model_class ← get_model_class table_name;
  match model_class with
  | None => model_not_loaded table_name
  | Some model_class =>
    items ← db_query_all model_class skip limit;
    columns ← get_table_columns table_name;
    let serialized_items := (fun item => serialize_row (attrs item) columns) <$> items in
    mret (mkGenericResponse true
            ("Retrieved " +:+ pretty (length items) +:+ " records from '"
               +:+ table_name +:+ "'")
            (Some (DataPage table_name serialized_items skip limit)) None)
  end.

(** The body of [read_items], once its parameters are accepted. *)
Definition read_items_fn (table_name : string) (skip limit : Z) : M GenericResponse :=
  tables ← gets AVAILABLE_TABLES;
  if bool_decide (table_name ∉ tables) then table_not_found table_name
  else
    try_except (read_items_try table_name skip limit)
      (fun e =>
         match e with
         | HTTPException _ _ => raise e
         | _ => raise (HTTPException 500 (str e))
         end).

Definition read_items (table_name : string) (skip limit : option Z) : M GenericResponse :=
  match Query "skip" 0 (Some 0) None skip, Query "limit" 10 (Some 1) (Some 100) limit with
  | inl skip, inl limit => get_db (read_items_fn table_name skip limit)
  | r1, r2 =>
      raise (RequestValidationError (errors_of r1 ++ errors_of r2))
  end.

Definition read_item_try (table_name record_id : string) : M GenericResponse :=
  model_class ← get_model_class table_name;
  match model_class with
  | None => model_not_loaded table_name
  | Some model_class =>
    pk_columns ← get_primary_keys table_name;
    match pk_columns with
    | [] => no_primary_key table_name
    | pk0 :: _ =>
      item ← db_query_first model_class pk0 record_id;
      match item with
      | None =>
          raise (HTTPException 404
                   ("Record not found in '" +:+ table_name +:+ "' with "
                      +:+ pk0 +:+ "=" +:+ record_id))
      | Some item =>
        columns ← get_table_columns table_name;
        let serialized_item := serialize_row (attrs item) columns in
        mret (mkGenericResponse true
                ("Retrieved record from '" +:+ table_name +:+ "'")
                (Some (DataRecord serialized_item)) None)
      end
    end
  end.

Definition read_item (table_name record_id : string) : M GenericResponse :=
  get_db
    (tables ← gets AVAILABLE_TABLES;
     if bool_decide (table_name ∉ tables) then table_not_found table_name
     else
       try_except (read_item_try table_name record_id)
         (fun e =>
            match e with
            | HTTPException _ _ => raise e
            | _ => raise (HTTPException 500 (str e))
            end)).

Definition create_item_try (table_name : string) (item_data : list (string * value))
  : M GenericResponse :=
  model_class ← get_model_class table_name;
  match model_class with
  | None => model_not_loaded table_name
  | Some model_class =>
    new_item ← construct model_class item_data;
    db_add new_item;;
    db_commit;;
    new_item ← db_refresh new_item;
    columns ← get_table_columns table_name;
    let serialized_item := serialize_row (attrs new_item) columns in
    mret (mkGenericResponse true
            ("Record created in '" +:+ table_name +:+ "'")
            (Some (DataRecord serialized_item)) None)
  end.

Definition create_item (table_name : string) (item_data : list (string * value))
  : M GenericResponse :=
  get_db
    (tables ← gets AVAILABLE_TABLES;
     if bool_decide (table_name ∉ tables) then table_not_found table_name
     else
       try_except (create_item_try table_name item_data)
         (fun e =>
            match e with
            | HTTPException _ _ => raise e
            | _ => db_rollback;; raise (HTTPException 400 (str e))
            end)).

(** The loop of [update_item] over [item_data.items()]. *)
Definition update_fields (item : Item) (item_data : list (string * value)) : M Item :=
  for_each
    (fun item '(key, v) =>
       if hasattr (attrs item) key then instance_setattr item key v else mret item)
    item item_data.

Definition update_item_try (table_name record_id : string)
    (item_data : list (string * value)) : M GenericResponse :=
  model_class ← get_model_class table_name;
  match model_class with
  | None => model_not_loaded table_name
  | Some model_class =>
    pk_columns ← get_primary_keys table_name;
    match pk_columns with
    | [] => no_primary_key table_name
    | pk0 :: _ =>
      item ← db_query_first model_class pk0 record_id;
      match item with
      | None =>
          raise (HTTPException 404 ("Record not found in '" +:+ table_name +:+ "'"))
      | Some item =>
        item ← update_fields item item_data;
        db_commit;;
        item ← db_refresh item;
        columns ← get_table_columns table_name;
        let serialized_item := serialize_row (attrs item) columns in
        mret (mkGenericResponse true
                ("Record updated in '" +:+ table_name +:+ "'")
                (Some (DataRecord serialized_item)) None)
      end
    end
  end.

Definition update_item (table_name record_id : string)
    (item_data : list (string * value)) : M GenericResponse :=
  get_db
    (tables ← gets AVAILABLE_TABLES;
     if bool_decide (table_name ∉ tables) then table_not_found table_name
     else
       try_except (update_item_try table_name record_id item_data)
         (fun e =>
            match e with
            | HTTPException _ _ => raise e
            | _ => db_rollback;; raise (HTTPException 400 (str e))
            end)).

Definition delete_item_try (table_name record_id : string) : M GenericResponse :=
  model_class ← get_model_class table_name;
  match model_class with
  | None => model_not_loaded table_name
  | Some model_class =>
    pk_columns ← get_primary_keys table_name;
    match pk_columns with
    | [] => no_primary_key table_name
    | pk0 :: _ =>
      item ← db_query_first model_class pk0 record_id;
      match item with
      | None =>
          raise (HTTPException 404 ("Record not found in '" +:+ table_name +:+ "'"))
      | Some item =>
        db_delete item;;
        db_commit;;
        mret (mkGenericResponse true
                ("Record deleted from '" +:+ table_name +:+ "'")
                (Some (DataDeleted record_id)) None)
      end
    end
  end.

Definition delete_item (table_name record_id : string) : M GenericResponse :=
  get_db
    (tables ← gets AVAILABLE_TABLES;
     if bool_decide (table_name ∉ tables) then table_not_found table_name
     else
       try_except (delete_item_try table_name record_id)
         (fun e =>
            match e with
            | HTTPException _ _ => raise e
            | _ => db_rollback;; raise (HTTPException 400 (str e))
            end)).

End Service.

(** ** The HTTP surface *)

(** One constructor per path operation of [main.py]. *)
Inductive request : Type :=
| GetRoot
| GetTables
| GetSchema (table_name : string)
| ListRecords (table_name : string) (skip limit : option Z)
| GetRecord (table_name record_id : string)
| CreateRecord (table_name : string) (item_data : list (string * value))
| UpdateRecord (table_name record_id : string) (item_data : list (string * value))
| DeleteRecord (table_name record_id : string).

Definition dispatch (env : Env) (rq : request) : M GenericResponse :=
  match rq with
  | GetRoot => root
  | GetTables => list_tables
  | GetSchema t => get_table_schema env t
  | ListRecords t skip limit => read_items env t skip limit
  | GetRecord t rid => read_item env t rid
  | CreateRecord t item_data => create_item env t item_data
  | UpdateRecord t rid item_data => update_item env t rid item_data
  | DeleteRecord t rid => delete_item env t rid
  end.

(** What the framework sends for the outcome of a path operation. *)
Definition render (r : GenericResponse + exn) : http_response :=
  match r with
  | inl r => HttpResponse 200 (Envelope r)
  | inr (HTTPException status_code detail) => HttpResponse status_code (Detail detail)
  | inr (RequestValidationError errors) => HttpResponse 422 (DetailList errors)
  | inr (Exception _) => HttpResponse 500 (PlainText "Internal Server Error")
  end.

Definition serve (env : Env) (rq : request) (w : World) : http_response * World :=
  let '(r, w') := dispatch env rq w in (render r, w').

(** The table a request names, when it names one. *)
Definition table_of (rq : request) : option string :=
  match rq with
  | GetRoot | GetTables => None
  | GetSchema t | ListRecords t _ _ | GetRecord t _ | CreateRecord t _
  | UpdateRecord t _ _ | DeleteRecord t _ => Some t
  end.

(** The parameters of a request pass the checks declared in the signature. *)
Definition accepted (rq : request) : bool :=
  match rq with
  | ListRecords _ skip limit =>
      (0 <=? default 0 skip) && (1 <=? default 10 limit) && (default 10 limit <=? 100)
  | _ => true
  end.

(** The requests that look a record up by [record_id]. *)
Definition by_identity (rq : request) : bool :=
  match rq with
  | GetRecord _ _ | UpdateRecord _ _ _ | DeleteRecord _ _ => true
  | _ => false
  end.

(** The [record_id] of a request that has one. *)
Definition record_id_of (rq : request) : string :=
  match rq with
  | GetRecord _ rid | UpdateRecord _ rid _ | DeleteRecord _ rid => rid
  | _ => ""
  end.

(** The [try] block of the path operation a request reaches. *)
Definition try_block (env : Env) (rq : request) : option (M GenericResponse) :=
  match rq with
  | GetRoot | GetTables => None
  | GetSchema t => Some (get_table_schema_try env t)
  | ListRecords t skip limit =>
      Some (read_items_try env t (default 0 skip) (default 10 limit))
  | GetRecord t rid => Some (read_item_try env t rid)
  | CreateRecord t item_data => Some (create_item_try env t item_data)
  | UpdateRecord t rid item_data => Some (update_item_try env t rid item_data)
  | DeleteRecord t rid => Some (delete_item_try env t rid)
  end.

(** The [try] block of a write operation. *)
Definition write_block (env : Env) (rq : request) : option (M GenericResponse) :=
  match rq with
  | CreateRecord _ _ | UpdateRecord _ _ _ | DeleteRecord _ _ => try_block env rq
  | _ => None
  end.

(** The same environment with another primary-key constraint for one table. *)
Definition with_pk_constraint (env : Env) (t : string) (pk : option (list string)) : Env :=
  mkEnv (get_table_names env) (get_columns env)
        (fun t' => if bool_decide (t' = t) then pk else get_pk_constraint env t')
        (get_foreign_keys env) (automap_classes env) (sql_eq env)
        (server_defaults env) (fault env).

(** The same environment where one more call raises. *)
Definition with_fault (env : Env) (c : call) (text : string) : Env :=
  mkEnv (get_table_names env) (get_columns env) (get_pk_constraint env)
        (get_foreign_keys env) (automap_classes env) (sql_eq env)
        (server_defaults env)
        (fun c' => if bool_decide (c' = c) then Some text else fault env c').

(** Attributes of a record after the loop of [update_item], and the changes
    the session has seen by then. *)
Fixpoint patched (row : Row) (item_data : list (string * value)) : Row :=
  match item_data with
  | [] => row
  | (key, v) :: rest =>
      if hasattr row key then patched (setattr row key v) rest else patched row rest
  end.

Fixpoint changes_of (t : string) (pos : nat) (row : Row)
    (item_data : list (string * value)) : list change :=
  match item_data with
  | [] => []
  | (key, v) :: rest =>
      if hasattr row key
      then SetField t pos key v :: changes_of t pos (setattr row key v) rest
      else changes_of t pos row rest
  end.

(** The calls an update makes when nothing goes wrong, oldest first. *)
Definition update_calls (t pk0 rid : string) : list call :=
  [Automap t; InspectPk t; QueryFirst t pk0 rid; Commit; Refresh t; InspectColumns t].

(** The value [item_data[key]] of a request body. *)
Definition body_get (item_data : list (string * value)) (key : string) : option value :=
  snd <$> List.find (fun kv => bool_decide (kv.1 = key)) item_data.

(** Serving requests one after the other. *)
Fixpoint serve_all (env : Env) (rqs : list request) (w : World) : World :=
  match rqs with
  | [] => w
  | rq :: rest => serve_all env rest (serve env rq w).2
  end.

(** ** A small database to run the service on *)
Module Demo.

Definition columns (t : string) : list column_info :=
  if bool_decide (t = "products") then
    [ColumnInfo "product_id" "INTEGER" false;
     ColumnInfo "product_name" "VARCHAR(40)" true;
     ColumnInfo "picture" "BLOB" true]
  else if bool_decide (t = "order_details") then
    [ColumnInfo "order_id" "INTEGER" false;
     ColumnInfo "product_id" "INTEGER" false;
     ColumnInfo "quantity" "INTEGER" true]
  else if bool_decide (t = "audit_log") then
    [ColumnInfo "line" "TEXT" true]
  else [].

Definition pk_constraint (t : string) : option (list string) :=
  if bool_decide (t = "products") then Some ["product_id"]
  else if bool_decide (t = "order_details") then Some ["order_id"; "product_id"]
  else if bool_decide (t = "audit_log") then Some []
  else None.

(** Automap maps the tables that have a primary key. *)
Definition classes (t : string) : bool :=
  bool_decide (t = "products") || bool_decide (t = "order_details").

Definition eq_as_sql (v : value) (s : string) : bool :=
  match v with
  | VInt z => bool_decide (pretty z = s)
  | VStr text => bool_decide (text = text_of s)
  | _ => false
  end.

Definition defaults (t : string) (r : Row) : Row :=
  if bool_decide (t = "products") && negb (hasattr r "product_id")
  then <["product_id" := VInt 3]> r else r.

Definition env : Env :=
  mkEnv ["audit_log"; "order_details"; "products"] columns pk_constraint
        (fun _ => []) classes eq_as_sql defaults (fun _ => None).

(** The database is unreachable when the tables are listed. *)
Definition env_down : Env := with_fault env InspectTableNames "Can't connect to MySQL server".

(** The commit is refused by the database. *)
Definition env_conflict : Env := with_fault env Commit "IntegrityError".

(** The connection is lost once the columns are read. *)
Definition env_late : Env := with_fault env (InspectColumns "products") "Lost connection".

Definition chai : Row :=
  {[ "product_id" := VInt 1; "product_name" := VStr (text_of "Chai");
     "picture" := VBytes [0x43; 0x68; 0xFF; 0x61; 0xC3; 0xA9] ]}.

Definition chang : Row :=
  {[ "product_id" := VInt 2; "product_name" := VStr (text_of "Chang");
     "picture" := VNone ]}.

Definition detail (o p q : Z) : Row :=
  {[ "order_id" := VInt o; "product_id" := VInt p; "quantity" := VInt q ]}.

Definition db : gmap string (list Row) :=
  {[ "products" := [chai; chang];
     "order_details" := [detail 1 1 10; detail 1 2 5; detail 2 1 7];
     "audit_log" := [ {[ "line" := VStr (text_of "boot") ]} ] ]}.

(** The world once [startup_event] has run against a reachable database. *)
Definition up : World := (startup_event env (boot db)).2.

(** The world once [startup_event] has run against an unreachable one. *)
Definition down : World := (startup_event env_down (boot db)).2.

End Demo.

(** ** Outcomes *)

(** The outcomes a path operation of [main.py] can have: a response with
    [success=True] and no [error], an [HTTPException] with one of the codes
    the file uses, or the rejection of the parameters. *)
Definition classified (r : GenericResponse + exn) : Prop :=
  match r with
  | inl r => success r = true /\ error r = None
  | inr (HTTPException status_code _) =>
      status_code = 400 \/ status_code = 404 \/ status_code = 500
  | inr (RequestValidationError _) => True
  | inr (Exception _) => False
  end.

(** What the [try] block of a write operation may leave behind, started in
    world [w]: the calls it made are [pre], none of them a rollback; a
    response means the commit went through; an exception that is not an
    [HTTPException] leaves the database as it was unless it came after the
    commit; an [HTTPException] comes before any write. *)
Definition write_outcome (env : Env) (w : World)
    (out : (GenericResponse + exn) * World) : Prop :=
  exists pre, trace out.2 = pre ++ trace w /\ (Rollback ∉ pre) /\
    match out.1 with
    | inl _ => fault env Commit = None /\ (Commit ∈ pre) /\ pending out.2 = []
    | inr (Exception _) =>
        (Commit ∉ pre) \/ is_Some (fault env Commit) -> database out.2 = database w
    | inr _ => (Commit ∉ pre) /\ database out.2 = database w
    end.

(** The [except] clauses of the read and of the write operations, applied to
    the outcome of the [try] block, with the session closed afterwards. *)
Definition except_read (out : (GenericResponse + exn) * World)
  : (GenericResponse + exn) * World :=
  match out with
  | (inl r, w1) => (inl r, set_pending [] w1)
  | (inr (HTTPException s d), w1) => (inr (HTTPException s d), set_pending [] w1)
  | (inr e, w1) => (inr (HTTPException 500 (str e)), set_pending [] w1)
  end.

Definition except_write (out : (GenericResponse + exn) * World)
  : (GenericResponse + exn) * World :=
  match out with
  | (inl r, w1) => (inl r, set_pending [] w1)
  | (inr (HTTPException s d), w1) => (inr (HTTPException s d), set_pending [] w1)
  | (inr e, w1) => (inr (HTTPException 400 (str e)), set_pending [] (log_call Rollback w1))
  end.

(** ** Vocabulary of the further properties *)

(** The requests of the [GET] routes. *)
Definition read_only (rq : request) : bool :=
  match rq with
  | GetRoot | GetTables | GetSchema _ | ListRecords _ _ _ | GetRecord _ _ => true
  | _ => false
  end.

(** The requests whose path operation resolves a model class. *)
Definition uses_model (rq : request) : bool :=
  match rq with
  | ListRecords _ _ _ | GetRecord _ _ | CreateRecord _ _ | UpdateRecord _ _ _
  | DeleteRecord _ _ => true
  | _ => false
  end.

(** The calls that change the unit of work of the session or end it. *)
Definition mutating (c : call) : bool :=
  match c with
  | SessionAdd _ | SessionDelete _ | Commit | Rollback => true
  | _ => false
  end.

(** The calls of a create, of a delete and of a get that go through, oldest
    first. *)
Definition create_calls (t : string) : list call :=
  [Automap t; Construct t; SessionAdd t; Commit; Refresh t; InspectColumns t].

Definition delete_calls (t pk0 rid : string) : list call :=
  [Automap t; InspectPk t; QueryFirst t pk0 rid; SessionDelete t; Commit].

Definition get_calls (t pk0 rid : string) : list call :=
  [Automap t; InspectPk t; QueryFirst t pk0 rid; InspectColumns t].

(** The [items] of the [data] of a page. *)
Definition page_items (resp : GenericResponse) : list (gmap string value) :=
  match data resp with
  | Some (DataPage _ items _ _) => items
  | _ => []
  end.

(** * Properties *)

(** ** The decoder *)

Ltac settle_test :=
  match goal with
  | |- context [Z.ltb ?a ?b] => destruct (Z.ltb_spec a b); [try lia | try lia]
  | |- context [Z.leb ?a ?b] => destruct (Z.leb_spec a b); [try lia | try lia]
  | |- context [Z.eqb ?a ?b] => destruct (Z.eqb_spec a b); [try lia | try lia]
  end.

Lemma utf8_decode_1 (ch : Z) (s : list Z) :
  0 <= ch < 0x80 ->
  Utf8.decode_ignore (ch :: s) = ch :: Utf8.decode_ignore s.
Proof.
  intros H. cbn [Utf8.decode_ignore]. repeat settle_test. reflexivity.
Qed.

Lemma utf8_decode_2 (ch ch2 : Z) (s : list Z) :
  0xC2 <= ch < 0xE0 -> 0x80 <= ch2 < 0xC0 ->
  Utf8.decode_ignore (ch :: ch2 :: s)
  = (ch * 64 + ch2 - (0xC0 * 64 + 0x80)) :: Utf8.decode_ignore s.
Proof.
  intros H H2. cbn [Utf8.decode_ignore]. unfold Utf8.is_continuation.
  repeat settle_test. reflexivity.
Qed.

Lemma utf8_decode_3 (ch ch2 ch3 : Z) (s : list Z) :
  0xE0 <= ch < 0xF0 -> 0x80 <= ch2 < 0xC0 -> 0x80 <= ch3 < 0xC0 ->
  (ch = 0xE0 -> 0xA0 <= ch2) -> (ch = 0xED -> ch2 < 0xA0) ->
  Utf8.decode_ignore (ch :: ch2 :: ch3 :: s)
  = (ch * 4096 + ch2 * 64 + ch3 - (0xE0 * 4096 + 0x80 * 64 + 0x80))
      :: Utf8.decode_ignore s.
Proof.
  intros H H2 H3 Ha Hb. cbn [Utf8.decode_ignore]. unfold Utf8.is_continuation.
  repeat settle_test; reflexivity.
Qed.

Lemma utf8_decode_4 (ch ch2 ch3 ch4 : Z) (s : list Z) :
  0xF0 <= ch < 0xF5 -> 0x80 <= ch2 < 0xC0 -> 0x80 <= ch3 < 0xC0 ->
  0x80 <= ch4 < 0xC0 ->
  (ch = 0xF0 -> 0x90 <= ch2) -> (ch = 0xF4 -> ch2 < 0x90) ->
  Utf8.decode_ignore (ch :: ch2 :: ch3 :: ch4 :: s)
  = (ch * 262144 + ch2 * 4096 + ch3 * 64 + ch4
       - (0xF0 * 262144 + 0x80 * 4096 + 0x80 * 64 + 0x80))
      :: Utf8.decode_ignore s.
Proof.
  intros H H2 H3 H4 Ha Hb. cbn [Utf8.decode_ignore]. unfold Utf8.is_continuation.
  repeat settle_test; reflexivity.
Qed.

Ltac divmod := Z.div_mod_to_equations; lia.

Lemma utf8_decode_encode_char (cp : Z) (rest : list Z) :
  Utf8.scalar cp ->
  Utf8.decode_ignore (Utf8.encode_char cp ++ rest) = cp :: Utf8.decode_ignore rest.
Proof.
  intros Hcp. unfold Utf8.scalar in Hcp. unfold Utf8.encode_char.
  destruct (Z.ltb_spec cp 0x80) as [H1|H1].
  { apply utf8_decode_1. lia. }
  destruct (Z.ltb_spec cp 0x800) as [H2|H2].
  { cbn [app]. rewrite utf8_decode_2 by divmod. f_equal. divmod. }
  destruct (Z.ltb_spec cp 0x10000) as [H3|H3].
  { cbn [app]. rewrite utf8_decode_3 by divmod. f_equal. divmod. }
  cbn [app]. rewrite utf8_decode_4 by divmod. f_equal. divmod.
Qed.

Lemma utf8_decode_encode (text rest : list Z) :
  Forall Utf8.scalar text ->
  Utf8.decode_ignore (Utf8.encode text ++ rest) = text ++ Utf8.decode_ignore rest.
Proof.
  unfold Utf8.encode. induction 1 as [|cp text Hcp _ IH]; [reflexivity|].
  rewrite bind_cons, <- app_assoc, utf8_decode_encode_char by assumption.
  cbn [app]. by rewrite IH.
Qed.

Ltac split_test :=
  match goal with
  | |- context [Z.ltb ?a ?b] => destruct (Z.ltb_spec a b)
  | |- context [Z.leb ?a ?b] => destruct (Z.leb_spec a b)
  | |- context [Z.eqb ?a ?b] => destruct (Z.eqb_spec a b)
  | |- context [match ?l with [] => _ | _ :: _ => _ end] => is_var l; destruct l
  end; cbn [andb orb negb].

Lemma utf8_decode_scalar_upto (n : nat) (s : list Z) :
  (length s <= n)%nat -> Forall Utf8.scalar (Utf8.decode_ignore s).
Proof.
  revert s. induction n as [|n IH]; intros s Hn.
  { destruct s; [constructor | cbn in Hn; lia]. }
  destruct s as [|ch s1]; [constructor|].
  cbn [Utf8.decode_ignore]. unfold Utf8.is_continuation.
  repeat split_test;
    first [ apply Forall_nil_2
          | apply IH; cbn [length] in *; lia
          | apply Forall_cons_2;
            [unfold Utf8.scalar; lia | apply IH; cbn [length] in *; lia] ].
Qed.

Lemma utf8_decode_scalar (s : list Z) : Forall Utf8.scalar (Utf8.decode_ignore s).
Proof. by apply (utf8_decode_scalar_upto (length s)). Qed.
(** ** The row serializer *)

Lemma serialize_cell_lookup (row result : gmap string value) (col c : string) :
  serialize_cell row result col !! c
  = if decide (col = c)
    then Some (match getattr row col VNone with
               | VBytes payload | VByteArray payload => VStr (Utf8.decode_ignore payload)
               | v => v
               end)
    else result !! c.
Proof.
  unfold serialize_cell.
  destruct (getattr row col VNone); rewrite lookup_insert; by case_decide.
Qed.

Lemma serialize_loop_lookup (row : gmap string value) (columns : list string)
    (result : gmap string value) (c : string) :
  foldl (serialize_cell row) result columns !! c
  = if decide (c ∈ columns)
    then Some (match getattr row c VNone with
               | VBytes payload | VByteArray payload => VStr (Utf8.decode_ignore payload)
               | v => v
               end)
    else result !! c.
Proof.
  revert result. induction columns as [|col columns IH]; intros result; cbn [foldl].
  { case_decide as H; [by apply elem_of_nil in H | done]. }
  rewrite IH, serialize_cell_lookup.
  repeat case_decide; subst; try done; set_solver.
Qed.

Lemma serialize_row_outside (row : gmap string value) (columns : list string) (c : string) :
  c ∉ columns -> serialize_row row columns !! c = None.
Proof.
  intros H. unfold serialize_row. rewrite serialize_loop_lookup.
  by case_decide.
Qed.

(** C3: for every row and column list, a column of the list whose attribute
    is missing (or is None) is serialized as null, a bytes or bytearray value
    as the text decoded from it as UTF-8 with the invalid bytes dropped (the
    decoder is total, gives only Unicode scalar values, and gives back the
    text of any well-formed payload), and any other value as itself. *)
Theorem serialize_row_cells (row : gmap string value) (columns : list string) (col : string) :
  col ∈ columns ->
  match row !! col with
  | None | Some VNone => serialize_row row columns !! col = Some VNone
  | Some (VBytes payload) | Some (VByteArray payload) =>
      serialize_row row columns !! col = Some (VStr (Utf8.decode_ignore payload))
      /\ Forall Utf8.scalar (Utf8.decode_ignore payload)
      /\ (forall text, Forall Utf8.scalar text -> payload = Utf8.encode text ->
            Utf8.decode_ignore payload = text)
  | Some v => serialize_row row columns !! col = Some v
  end.
Proof.
  intros Hin. unfold serialize_row.
  rewrite serialize_loop_lookup. rewrite decide_True by done.
  unfold getattr. destruct (row !! col) as [[]|]; try done.
  all: split; [done|]; split; [apply utf8_decode_scalar|].
  all: intros text Htext ->.
  all: rewrite <- (app_nil_r (Utf8.encode text)).
  all: by rewrite utf8_decode_encode, app_nil_r.
Qed.

Lemma serialize_row_cells_witness :
  serialize_row Demo.chai ["product_id"; "picture"; "missing"] !! "picture"
  = Some (VStr [0x43; 0x68; 0x61; 0xE9])
  /\ serialize_row Demo.chai ["product_id"; "picture"; "missing"] !! "missing"
     = Some VNone
  /\ serialize_row Demo.chai ["product_id"; "picture"; "missing"] !! "product_id"
     = Some (VInt 1).
Proof.
  split; [|split].
  - pose proof (serialize_row_cells Demo.chai ["product_id"; "picture"; "missing"]
                  "picture" ltac:(set_solver)) as H.
    exact (proj1 H).
  - exact (serialize_row_cells Demo.chai ["product_id"; "picture"; "missing"]
             "missing" ltac:(set_solver)).
  - exact (serialize_row_cells Demo.chai ["product_id"; "picture"; "missing"]
             "product_id" ltac:(set_solver)).
Defined.
(** ** Running the monad *)

Section Run.

Context (env : Env).

Lemma run_bind {A B : Type} (m : M A) (k : A -> M B) (w : World) :
  (m ≫= k) w
  = match m w with
    | (inl a, w') => k a w'
    | (inr e, w') => (inr e, w')
    end.
Proof. reflexivity. Qed.

Lemma run_ret {A : Type} (a : A) (w : World) : mret (M := M) a w = (inl a, w).
Proof. reflexivity. Qed.

Lemma run_external (c : call) (w : World) :
  external env c w
  = match fault env c with
    | Some text => (inr (Exception text), log_call c w)
    | None => (inl tt, log_call c w)
    end.
Proof. reflexivity. Qed.

Lemma run_get_model_class (t : string) (w : World) :
  get_model_class env t w
  = match fault env (Automap t) with
    | Some text => (inr (Exception text), log_call (Automap t) w)
    | None => (inl (if automap_classes env t then Some t else None),
               log_call (Automap t) w)
    end.
Proof. unfold get_model_class. rewrite run_bind, run_external. by destruct (fault _ _). Qed.


Lemma run_inspector_get_table_names (w : World) :
  inspector_get_table_names env w
  = match fault env InspectTableNames with
    | Some text => (inr (Exception text), log_call InspectTableNames w)
    | None => (inl (get_table_names env), log_call InspectTableNames w)
    end.
Proof.
  unfold inspector_get_table_names. rewrite run_bind, run_external.
  by destruct (fault _ _).
Qed.

Lemma run_inspector_get_columns (t : string) (w : World) :
  inspector_get_columns env t w
  = match fault env (InspectColumns t) with
    | Some text => (inr (Exception text), log_call (InspectColumns t) w)
    | None => (inl (get_columns env t), log_call (InspectColumns t) w)
    end.
Proof.
  unfold inspector_get_columns. rewrite run_bind, run_external.
  by destruct (fault _ _).
Qed.

Lemma run_inspector_get_pk_constraint (t : string) (w : World) :
  inspector_get_pk_constraint env t w
  = match fault env (InspectPk t) with
    | Some text => (inr (Exception text), log_call (InspectPk t) w)
    | None => (inl (get_pk_constraint env t), log_call (InspectPk t) w)
    end.
Proof.
  unfold inspector_get_pk_constraint. rewrite run_bind, run_external.
  by destruct (fault _ _).
Qed.

Lemma run_inspector_get_foreign_keys (t : string) (w : World) :
  inspector_get_foreign_keys env t w
  = match fault env (InspectFks t) with
    | Some text => (inr (Exception text), log_call (InspectFks t) w)
    | None => (inl (get_foreign_keys env t), log_call (InspectFks t) w)
    end.
Proof.
  unfold inspector_get_foreign_keys. rewrite run_bind, run_external.
  by destruct (fault _ _).
Qed.

Lemma run_get_table_columns (t : string) (w : World) :
  get_table_columns env t w
  = match fault env (InspectColumns t) with
    | Some text => (inr (Exception text), log_call (InspectColumns t) w)
    | None => (inl (col_name <$> get_columns env t), log_call (InspectColumns t) w)
    end.
Proof.
  unfold get_table_columns. rewrite run_bind, run_inspector_get_columns.
  by destruct (fault _ _).
Qed.

Lemma run_get_primary_keys (t : string) (w : World) :
  get_primary_keys env t w
  = match fault env (InspectPk t) with
    | Some text => (inr (Exception text), log_call (InspectPk t) w)
    | None => (inl (default [] (get_pk_constraint env t)), log_call (InspectPk t) w)
    end.
Proof.
  unfold get_primary_keys. rewrite run_bind, run_inspector_get_pk_constraint.
  by destruct (fault _ _).
Qed.

Lemma run_db_query_all (model : string) (skip limit : Z) (w : World) :
  db_query_all env model skip limit w
  = match fault env (QueryAll model skip limit) with
    | Some text => (inr (Exception text), log_call (QueryAll model skip limit) w)
    | None =>
        (inl (take (Z.to_nat limit)
                (drop (Z.to_nat skip) (instances model (rows_of (database w) model)))),
         log_call (QueryAll model skip limit) w)
    end.
Proof.
  unfold db_query_all. rewrite run_bind, run_external.
  by destruct (fault _ _).
Qed.

Lemma run_db_query_first (model col v : string) (w : World) :
  db_query_first env model col v w
  = match fault env (QueryFirst model col v) with
    | Some text => (inr (Exception text), log_call (QueryFirst model col v) w)
    | None =>
        (inl (List.find (matches env col v) (instances model (rows_of (database w) model))),
         log_call (QueryFirst model col v) w)
    end.
Proof.
  unfold db_query_first. rewrite run_bind, run_external.
  by destruct (fault _ _).
Qed.

Lemma run_construct (model : string) (item_data : list (string * value)) (w : World) :
  construct env model item_data w
  = match fault env (Construct model) with
    | Some text => (inr (Exception text), log_call (Construct model) w)
    | None =>
        (inl (mkItem model (length (rows_of (database w) model)) (list_to_map item_data)),
         log_call (Construct model) w)
    end.
Proof.
  unfold construct. rewrite run_bind, run_external.
  by destruct (fault _ _).
Qed.

Lemma run_db_add (it : Item) (w : World) :
  db_add env it w
  = match fault env (SessionAdd (item_table it)) with
    | Some text => (inr (Exception text), log_call (SessionAdd (item_table it)) w)
    | None =>
        (inl tt,
         set_pending (pending w ++ [Insert (item_table it) (attrs it)])
           (log_call (SessionAdd (item_table it)) w))
    end.
Proof.
  unfold db_add. rewrite run_bind, run_external.
  by destruct (fault _ _).
Qed.

Lemma run_db_delete (it : Item) (w : World) :
  db_delete env it w
  = match fault env (SessionDelete (item_table it)) with
    | Some text => (inr (Exception text), log_call (SessionDelete (item_table it)) w)
    | None =>
        (inl tt,
         set_pending (pending w ++ [DeleteRow (item_table it) (item_pos it)])
           (log_call (SessionDelete (item_table it)) w))
    end.
Proof.
  unfold db_delete. rewrite run_bind, run_external.
  by destruct (fault _ _).
Qed.

Lemma run_db_commit (w : World) :
  db_commit env w
  = match fault env Commit with
    | Some text => (inr (Exception text), log_call Commit w)
    | None => (inl tt, flush env (log_call Commit w))
    end.
Proof.
  unfold db_commit. rewrite run_bind, run_external.
  by destruct (fault _ _).
Qed.

Lemma run_db_refresh (it : Item) (w : World) :
  db_refresh env it w
  = match fault env (Refresh (item_table it)) with
    | Some text => (inr (Exception text), log_call (Refresh (item_table it)) w)
    | None =>
        match rows_of (database w) (item_table it) !! item_pos it with
        | Some r => (inl (with_attrs it r), log_call (Refresh (item_table it)) w)
        | None => (inr (Exception "Could not refresh instance"),
                   log_call (Refresh (item_table it)) w)
        end
    end.
Proof.
  unfold db_refresh. rewrite run_bind, run_external.
  destruct (fault _ _); [done|]. cbv beta iota. rewrite run_bind.
  unfold gets. cbv beta iota.
  change (database (log_call (Refresh (item_table it)) w)) with (database w).
  by destruct (rows_of _ _ !! _).
Qed.

Lemma run_db_rollback (w : World) :
  db_rollback w = (inl tt, set_pending [] (log_call Rollback w)).
Proof. reflexivity. Qed.

Lemma run_update_fields (it : Item) (item_data : list (string * value)) (w : World) :
  update_fields it item_data w
  = (inl (with_attrs it (patched (attrs it) item_data)),
     set_pending
       (pending w ++ changes_of (item_table it) (item_pos it) (attrs it) item_data) w).
Proof.
  unfold update_fields. revert it w.
  induction item_data as [|[key v] rest IH]; intros it w; cbn [for_each patched changes_of].
  { rewrite run_ret, app_nil_r. by destruct it as [t pos r], w as [ts d p tr]. }
  rewrite run_bind. destruct (hasattr (attrs it) key).
  - unfold instance_setattr. rewrite run_bind. unfold record, modify.
    cbv beta iota. rewrite run_ret. cbv beta iota. rewrite IH.
    destruct it as [t pos r], w as [ts d p tr]. cbn [with_attrs item_table item_pos attrs pending set_pending
                         AVAILABLE_TABLES database trace].
    by rewrite <- app_assoc.
  - rewrite run_ret. apply IH.
Qed.

End Run.
(** ** Parameter checks of [read_items] *)

Lemma read_items_accepted (env : Env) (t : string) (skip limit : option Z) :
  accepted (ListRecords t skip limit) = true ->
  read_items env t skip limit
  = get_db (read_items_fn env t (default 0 skip) (default 10 limit)).
Proof.
  unfold accepted, read_items, Query. cbn [from_option].
  intros H. apply andb_prop in H as [H H3]. apply andb_prop in H as [H1 H2].
  by rewrite H1, H2, H3.
Qed.

Lemma read_items_rejected (env : Env) (t : string) (skip limit : option Z) :
  accepted (ListRecords t skip limit) = false ->
  exists errors, read_items env t skip limit = raise (RequestValidationError errors).
Proof.
  unfold accepted, read_items, Query. cbn [from_option]. intros H.
  destruct (0 <=? default 0 skip), (1 <=? default 10 limit),
    (default 10 limit <=? 100); try discriminate H; eauto.
Qed.

(** ** Unknown tables *)

Section Unknown.

Context (env : Env) (w : World) (t : string).
Hypothesis unknown : t ∉ AVAILABLE_TABLES w.

Lemma get_table_schema_unknown :
  get_table_schema env t w
  = (inr (HTTPException 404 ("Table '" +:+ t +:+ "' not found")), w).
Proof.
  unfold get_table_schema. rewrite run_bind. unfold gets. cbv beta iota.
  by rewrite bool_decide_eq_true_2.
Qed.

Lemma read_items_fn_unknown (skip limit : Z) :
  get_db (read_items_fn env t skip limit) w
  = (inr (HTTPException 404 ("Table '" +:+ t +:+ "' not found")), set_pending [] w).
Proof.
  unfold get_db, read_items_fn. rewrite run_bind. unfold gets. cbv beta iota.
  change (AVAILABLE_TABLES (set_pending [] w)) with (AVAILABLE_TABLES w).
  rewrite bool_decide_eq_true_2 by done. reflexivity.
Qed.

Lemma read_item_unknown (rid : string) :
  read_item env t rid w
  = (inr (HTTPException 404 ("Table '" +:+ t +:+ "' not found")), set_pending [] w).
Proof.
  unfold read_item, get_db. rewrite run_bind. unfold gets. cbv beta iota.
  change (AVAILABLE_TABLES (set_pending [] w)) with (AVAILABLE_TABLES w).
  rewrite bool_decide_eq_true_2 by done. reflexivity.
Qed.

Lemma create_item_unknown (item_data : list (string * value)) :
  create_item env t item_data w
  = (inr (HTTPException 404 ("Table '" +:+ t +:+ "' not found")), set_pending [] w).
Proof.
  unfold create_item, get_db. rewrite run_bind. unfold gets. cbv beta iota.
  change (AVAILABLE_TABLES (set_pending [] w)) with (AVAILABLE_TABLES w).
  rewrite bool_decide_eq_true_2 by done. reflexivity.
Qed.

Lemma update_item_unknown (rid : string) (item_data : list (string * value)) :
  update_item env t rid item_data w
  = (inr (HTTPException 404 ("Table '" +:+ t +:+ "' not found")), set_pending [] w).
Proof.
  unfold update_item, get_db. rewrite run_bind. unfold gets. cbv beta iota.
  change (AVAILABLE_TABLES (set_pending [] w)) with (AVAILABLE_TABLES w).
  rewrite bool_decide_eq_true_2 by done. reflexivity.
Qed.

Lemma delete_item_unknown (rid : string) :
  delete_item env t rid w
  = (inr (HTTPException 404 ("Table '" +:+ t +:+ "' not found")), set_pending [] w).
Proof.
  unfold delete_item, get_db. rewrite run_bind. unfold gets. cbv beta iota.
  change (AVAILABLE_TABLES (set_pending [] w)) with (AVAILABLE_TABLES w).
  rewrite bool_decide_eq_true_2 by done. reflexivity.
Qed.

End Unknown.

Lemma unknown_table_outcome (env : Env) (rq : request) (t : string) (w : World) :
  table_of rq = Some t ->
  t ∉ AVAILABLE_TABLES w ->
  trace (serve env rq w).2 = trace w
  /\ database (serve env rq w).2 = database w
  /\ (accepted rq = true ->
      (serve env rq w).1
      = HttpResponse 404 (Detail ("Table '" +:+ t +:+ "' not found")))
  /\ (accepted rq = false -> status (serve env rq w).1 = 422).
Proof.
  intros Ht Hun. unfold serve.
  destruct rq as [ | |t'|t' skip limit|t' rid|t' item_data|t' rid item_data|t' rid];
    try discriminate Ht; injection Ht as ->; cbn [dispatch].
  - by rewrite get_table_schema_unknown.
  - destruct (accepted (ListRecords t skip limit)) eqn:Hacc.
    + rewrite read_items_accepted, read_items_fn_unknown by done. done.
    + destruct (read_items_rejected env t skip limit Hacc) as [errors ->]. done.
  - by rewrite read_item_unknown.
  - by rewrite create_item_unknown.
  - by rewrite update_item_unknown.
  - by rewrite delete_item_unknown.
Qed.

(** C1, as the code has it: a request that names a table outside the table
    list makes no call to any collaborator and leaves the database as it is;
    it is answered 404 "Table ... not found" when its parameters pass the
    checks of the signature, and 422 when they do not (list records with
    skip or limit out of range). *)
Theorem unknown_table_rejected (env : Env) (rq : request) (t : string) (w : World) :
  table_of rq = Some t ->
  t ∉ AVAILABLE_TABLES w ->
  trace (serve env rq w).2 = trace w
  /\ database (serve env rq w).2 = database w
  /\ (accepted rq = true ->
      (serve env rq w).1
      = HttpResponse 404 (Detail ("Table '" +:+ t +:+ "' not found")))
  /\ (accepted rq = false -> status (serve env rq w).1 = 422).
Proof. apply unknown_table_outcome. Qed.

Lemma unknown_table_rejected_witness :
  (serve Demo.env (DeleteRecord "nope" "1") Demo.up).1
  = HttpResponse 404 (Detail "Table 'nope' not found")
  /\ trace (serve Demo.env (DeleteRecord "nope" "1") Demo.up).2 = trace Demo.up.
Proof.
  assert (Hun : "nope" ∉ AVAILABLE_TABLES Demo.up).
  { apply (bool_decide_unpack _). by vm_compute. }
  pose proof (unknown_table_rejected Demo.env (DeleteRecord "nope" "1") "nope"
                Demo.up eq_refl Hun) as (Htrace & _ & H404 & _).
  split; [exact (H404 eq_refl) | exact Htrace].
Defined.

(** C1 as stated fails: listing the records of an unknown table with
    [limit=0] is answered 422 by the parameter check, not 404. *)
Lemma unknown_table_not_always_404 :
  table_of (ListRecords "nope" None (Some 0)) = Some "nope"
  /\ ("nope" ∉ AVAILABLE_TABLES Demo.up)
  /\ status (serve Demo.env (ListRecords "nope" None (Some 0)) Demo.up).1 = 422
  /\ ~ (forall env w rq t,
          table_of rq = Some t -> t ∉ AVAILABLE_TABLES w ->
          status (serve env rq w).1 = 404).
Proof.
  assert (Hun : "nope" ∉ AVAILABLE_TABLES Demo.up).
  { apply (bool_decide_unpack _). by vm_compute. }
  split; [done|]. split; [done|]. split; [by vm_compute|].
  intros H.
  specialize (H Demo.env Demo.up (ListRecords "nope" None (Some 0)) "nope" eq_refl Hun).
  vm_compute in H. discriminate H.
Qed.
(** ** Symbolic execution of a path operation *)

Create Rewrite HintDb run.

#[global] Hint Rewrite @run_bind @run_ret run_external run_get_model_class
  run_inspector_get_table_names run_inspector_get_columns
  run_inspector_get_pk_constraint run_inspector_get_foreign_keys
  run_get_table_columns run_get_primary_keys run_db_query_all
  run_db_query_first run_construct run_db_add run_db_delete run_db_commit
  run_db_refresh run_db_rollback run_update_fields : run.

Ltac exec_split :=
  match goal with
  | H : fault ?e ?c = _ |- context [fault ?e ?c] => rewrite H
  | H : automap_classes ?e ?t = _ |- context [automap_classes ?e ?t] => rewrite H
  | H : get_pk_constraint ?e ?t = _ |- context [get_pk_constraint ?e ?t] => rewrite H
  | |- context [fault ?e ?c] => destruct (fault e c) eqn:?
  | |- context [automap_classes ?e ?t] => destruct (automap_classes e t) eqn:?
  | |- context [get_pk_constraint ?e ?t] =>
      destruct (get_pk_constraint e t) as [[|? ?]|] eqn:?
  | |- context [List.find ?f ?l] => destruct (List.find f l) eqn:?
  | |- context [match ?l !! ?i with _ => _ end] => destruct (l !! i) eqn:?
  end.

Ltac exec :=
  repeat first
    [ progress cbn [with_pk_constraint with_fault fault automap_classes
                    get_pk_constraint get_columns get_foreign_keys
                    get_table_names sql_eq server_defaults]
    | match goal with
      | |- context [matches (with_pk_constraint ?e ?t ?pk)] =>
          change (matches (with_pk_constraint e t pk)) with (matches e)
      | |- context [flush (with_pk_constraint ?e ?t ?pk)] =>
          change (flush (with_pk_constraint e t pk)) with (flush e)
      end
    | progress autorewrite with run
    | progress cbv beta iota delta [from_option id raise try_except get_db gets
                                    table_not_found model_not_loaded no_primary_key]
    | exec_split ].

Lemma get_table_schema_classified (env : Env) (t : string) (w : World) :
  classified (get_table_schema env t w).1
  /\ AVAILABLE_TABLES (get_table_schema env t w).2 = AVAILABLE_TABLES w.
Proof.
  unfold get_table_schema. rewrite run_bind. unfold gets. cbv beta iota.
  case_bool_decide; [cbn; auto|].
  unfold get_table_schema_try. exec; cbn; auto.
Qed.

Ltac settle := cbn; repeat split; auto.

Lemma read_items_classified (env : Env) (t : string) (skip limit : option Z) (w : World) :
  classified (read_items env t skip limit w).1
  /\ AVAILABLE_TABLES (read_items env t skip limit w).2 = AVAILABLE_TABLES w.
Proof.
  destruct (accepted (ListRecords t skip limit)) eqn:Hacc.
  - rewrite read_items_accepted by done. unfold read_items_fn, read_items_try.
    exec. case_bool_decide; exec; settle.
  - by destruct (read_items_rejected env t skip limit Hacc) as [errors ->].
Qed.

Lemma read_item_classified (env : Env) (t rid : string) (w : World) :
  classified (read_item env t rid w).1
  /\ AVAILABLE_TABLES (read_item env t rid w).2 = AVAILABLE_TABLES w.
Proof.
  unfold read_item, read_item_try.
  exec. case_bool_decide; exec; settle.
Qed.

Lemma create_item_classified (env : Env) (t : string) (item_data : list (string * value))
    (w : World) :
  classified (create_item env t item_data w).1
  /\ AVAILABLE_TABLES (create_item env t item_data w).2 = AVAILABLE_TABLES w.
Proof.
  unfold create_item, create_item_try.
  exec. case_bool_decide; exec; settle.
Qed.

Lemma update_item_classified (env : Env) (t rid : string)
    (item_data : list (string * value)) (w : World) :
  classified (update_item env t rid item_data w).1
  /\ AVAILABLE_TABLES (update_item env t rid item_data w).2 = AVAILABLE_TABLES w.
Proof.
  unfold update_item, update_item_try.
  exec. case_bool_decide; exec; settle.
Qed.

Lemma delete_item_classified (env : Env) (t rid : string) (w : World) :
  classified (delete_item env t rid w).1
  /\ AVAILABLE_TABLES (delete_item env t rid w).2 = AVAILABLE_TABLES w.
Proof.
  unfold delete_item, delete_item_try.
  exec. case_bool_decide; exec; settle.
Qed.

Lemma dispatch_classified (env : Env) (rq : request) (w : World) :
  classified (dispatch env rq w).1
  /\ AVAILABLE_TABLES (dispatch env rq w).2 = AVAILABLE_TABLES w.
Proof.
  destruct rq; cbn [dispatch].
  - by cbn.
  - by cbn.
  - apply get_table_schema_classified.
  - apply read_items_classified.
  - apply read_item_classified.
  - apply create_item_classified.
  - apply update_item_classified.
  - apply delete_item_classified.
Qed.

(** ** The shape of the responses *)



(** ** Startup *)

Lemma serve_all_tables (env : Env) (rqs : list request) (w : World) :
  AVAILABLE_TABLES (serve_all env rqs w) = AVAILABLE_TABLES w.
Proof.
  revert w. induction rqs as [|rq rqs IH]; intros w; cbn [serve_all]; [done|].
  rewrite IH. unfold serve.
  pose proof (dispatch_classified env rq w) as [_ H].
  by destruct (dispatch env rq w).
Qed.

Lemma startup_event_down (env : Env) (d : gmap string (list Row)) (text : string) :
  fault env InspectTableNames = Some text ->
  startup_event env (boot d) = (inl tt, log_call InspectTableNames (boot d)).
Proof.
  intros H. unfold startup_event, get_all_tables. exec. reflexivity.
Qed.

(** C9, as the code has it: when listing the tables fails at startup,
    [startup_event] still returns normally and the table list stays empty;
    from then on, whatever requests were served in between, a request that
    names a table (with accepted parameters) is answered 404 "Table ... not
    found", while the root and the table listing answer 200 with an empty
    list. *)
Theorem startup_failure_degrades (env : Env) (d : gmap string (list Row))
    (text : string) (rqs : list request) (rq : request) :
  fault env InspectTableNames = Some text ->
  (startup_event env (boot d)).1 = inl tt
  /\ AVAILABLE_TABLES (startup_event env (boot d)).2 = []
  /\ match rq with
     | GetRoot =>
         (serve env rq (serve_all env rqs (startup_event env (boot d)).2)).1
         = HttpResponse 200
             (Envelope (mkGenericResponse true "Northwind Microserver API is running"
                          (Some (DataStatus API_VERSION [])) None))
     | GetTables =>
         (serve env rq (serve_all env rqs (startup_event env (boot d)).2)).1
         = HttpResponse 200
             (Envelope (mkGenericResponse true "Found 0 tables"
                          (Some (DataTables [])) None))
     | _ =>
         accepted rq = true ->
         exists t, table_of rq = Some t
           /\ (serve env rq (serve_all env rqs (startup_event env (boot d)).2)).1
              = HttpResponse 404 (Detail ("Table '" +:+ t +:+ "' not found"))
     end.
Proof.
  intros Hdown. rewrite (startup_event_down env d text Hdown).
  split; [done|]. split; [done|].
  set (w := serve_all env rqs _).
  assert (Hw : AVAILABLE_TABLES w = []) by (unfold w; by rewrite serve_all_tables).
  assert (Hun : forall t, t ∉ AVAILABLE_TABLES w) by (intros t; rewrite Hw; set_solver).
  destruct rq as [ | |t|t skip limit|t rid|t item_data|t rid item_data|t rid].
  1, 2: unfold serve; cbn [dispatch]; unfold root, list_tables; exec; by rewrite Hw.
  all: intros Hacc; exists t; split; [done|].
  all: match goal with
       | |- (serve _ ?rq _).1 = _ =>
           by apply (unknown_table_outcome env rq t w eq_refl (Hun t))
       end.
Qed.

Lemma startup_failure_degrades_witness :
  (startup_event Demo.env_down (boot Demo.db)).1 = inl tt
  /\ AVAILABLE_TABLES Demo.down = []
  /\ (serve Demo.env_down (GetRecord "products" "1")
        (serve_all Demo.env_down [GetRoot; CreateRecord "products" []] Demo.down)).1
     = HttpResponse 404 (Detail "Table 'products' not found").
Proof.
  pose proof (startup_failure_degrades Demo.env_down Demo.db
                "Can't connect to MySQL server"
                [GetRoot; CreateRecord "products" []] (GetRecord "products" "1")
                eq_refl) as (H1 & H2 & H3).
  split; [exact H1|]. split; [exact H2|].
  destruct (H3 eq_refl) as (t & Ht & H404).
  injection Ht as <-. exact H404.
Defined.

(** C9 as stated fails: after a failed startup the root endpoint still
    answers 200 "API is running"; it does not report "table not found". *)
Lemma root_survives_failed_startup :
  fault Demo.env_down InspectTableNames = Some "Can't connect to MySQL server"
  /\ status (serve Demo.env_down GetRoot Demo.down).1 = 200
  /\ ~ (forall env d text rq,
          fault env InspectTableNames = Some text ->
          status (serve env rq (startup_event env (boot d)).2).1 = 404).
Proof.
  split; [done|]. split; [by vm_compute|].
  intros H. specialize (H Demo.env_down Demo.db _ GetRoot eq_refl).
  vm_compute in H. discriminate H.
Qed.
(** ** Write operations: commit and rollback *)

Ltac calls_since l tr :=
  match l with
  | tr => constr:(@nil call)
  | ?c :: ?l' => let p := calls_since l' tr in constr:(c :: p)
  end.

Ltac not_among :=
  let Hin := fresh "Hin" in
  intros Hin;
  repeat (apply elem_of_cons in Hin as [Hin|Hin]; [discriminate Hin|]);
  by apply elem_of_nil in Hin.

Ltac among := repeat first [by apply list_elem_of_here | apply list_elem_of_further].

Ltac settle_write :=
  unfold write_outcome;
  cbn [fst snd trace database pending flush set_pending set_database log_call];
  match goal with
  | |- exists pre, ?l = pre ++ ?tr /\ _ =>
      let p := calls_since l tr in exists p
  end;
  split; [reflexivity|]; split; [not_among|];
  first
    [ split; [not_among | reflexivity]
    | split; [assumption | split; [among | reflexivity]]
    | intros _; reflexivity
    | intros [Habs|Habs];
      [ exfalso; apply Habs; among
      | match goal with H : fault _ Commit = None |- _ =>
          rewrite H in Habs; by destruct Habs end ] ].

Lemma create_item_try_outcome (env : Env) (t : string)
    (item_data : list (string * value)) (w : World) :
  write_outcome env w (create_item_try env t item_data w).
Proof.
  unfold create_item_try. exec; settle_write.
Qed.

Lemma update_item_try_outcome (env : Env) (t rid : string)
    (item_data : list (string * value)) (w : World) :
  write_outcome env w (update_item_try env t rid item_data w).
Proof.
  unfold update_item_try. exec; settle_write.
Qed.

Lemma delete_item_try_outcome (env : Env) (t rid : string) (w : World) :
  write_outcome env w (delete_item_try env t rid w).
Proof.
  unfold delete_item_try. exec; settle_write.
Qed.

(** ** The [except] clauses *)

Lemma set_pending_idle (w : World) : pending w = [] -> set_pending [] w = w.
Proof. destruct w as [ts d p tr]. cbn. by intros ->. Qed.

Section Known.

Context (env : Env) (w : World) (t : string).
Hypothesis known : t ∈ AVAILABLE_TABLES w.
Hypothesis idle : pending w = [].

Ltac into_try :=
  unfold get_db; rewrite ?set_pending_idle by exact idle;
  rewrite run_bind; unfold gets; cbv beta iota;
  rewrite bool_decide_eq_false_2 by (by intros ?);
  unfold try_except;
  match goal with
  | |- _ = _ ?out => destruct out as [[?|[]] ?]
  end; reflexivity.

Lemma get_table_schema_wraps :
  get_table_schema env t w
  = match get_table_schema_try env t w with
    | (inr e, w1) => (inr (HTTPException 500 (str e)), w1)
    | out => out
    end.
Proof.
  unfold get_table_schema. rewrite run_bind. unfold gets. cbv beta iota.
  rewrite bool_decide_eq_false_2 by (by intros ?).
  reflexivity.
Qed.

Lemma read_items_fn_wraps (skip limit : Z) :
  get_db (read_items_fn env t skip limit) w
  = except_read (read_items_try env t skip limit w).
Proof. unfold read_items_fn. into_try. Qed.

Lemma read_item_wraps (rid : string) :
  read_item env t rid w = except_read (read_item_try env t rid w).
Proof. unfold read_item. into_try. Qed.

Lemma create_item_wraps (item_data : list (string * value)) :
  create_item env t item_data w = except_write (create_item_try env t item_data w).
Proof. unfold create_item. into_try. Qed.

Lemma update_item_wraps (rid : string) (item_data : list (string * value)) :
  update_item env t rid item_data w
  = except_write (update_item_try env t rid item_data w).
Proof. unfold update_item. into_try. Qed.

Lemma delete_item_wraps (rid : string) :
  delete_item env t rid w = except_write (delete_item_try env t rid w).
Proof. unfold delete_item. into_try. Qed.

End Known.

(** C7, as the code has it: for a write operation on a known table, started
    with a fresh session, (1) when the [try] block returns, the commit went
    through and no rollback was made; (2) when it raises an exception that is
    not an [HTTPException], [db.rollback()] is the last call made and the
    answer is the [HTTPException] 400 carrying the text of the exception; the
    database is as before the request whenever the exception came no later
    than the commit (the commit was not reached, or it is the call that
    failed); (3) an [HTTPException] raised in the block leaves the database
    as it was. *)
Theorem write_commits_or_rolls_back (env : Env) (rq : request)
    (body : M GenericResponse) (t : string) (w : World) :
  write_block env rq = Some body ->
  table_of rq = Some t ->
  t ∈ AVAILABLE_TABLES w ->
  pending w = [] ->
  match body w with
  | (inl resp, w1) =>
      dispatch env rq w = (inl resp, set_pending [] w1)
      /\ fault env Commit = None
      /\ exists pre, trace w1 = pre ++ trace w /\ (Commit ∈ pre) /\ (Rollback ∉ pre)
  | (inr (Exception text), w1) =>
      dispatch env rq w
      = (inr (HTTPException 400 text), set_pending [] (log_call Rollback w1))
      /\ exists pre, trace w1 = pre ++ trace w
           /\ ((Commit ∉ pre) \/ is_Some (fault env Commit) ->
               database (dispatch env rq w).2 = database w)
  | (inr (HTTPException status_code detail), w1) =>
      dispatch env rq w = (inr (HTTPException status_code detail), set_pending [] w1)
      /\ database w1 = database w
  | (inr (RequestValidationError _), _) => True
  end.
Proof.
  intros Hbody Ht Hknown Hidle.
  assert (Hout : write_outcome env w (body w)
                 /\ dispatch env rq w = except_write (body w)).
  { destruct rq; try discriminate Hbody;
      cbn in Hbody, Ht; injection Hbody as <-; injection Ht as ->; cbn [dispatch].
    - split; [apply create_item_try_outcome | by apply create_item_wraps].
    - split; [apply update_item_try_outcome | by apply update_item_wraps].
    - split; [apply delete_item_try_outcome | by apply delete_item_wraps]. }
  destruct Hout as [(pre & Htrace & Hroll & Hout) ->].
  destruct (body w) as [[resp|[status_code detail|errors|text]] w1];
    cbn [fst snd except_write str] in *; try done.
  - destruct Hout as (Hc & Hin & _). eauto 10.
  - destruct Hout as [_ Hdb]. done.
  - split; [done|]. exists pre. split; [done|]. exact Hout.
Qed.

Lemma write_commits_or_rolls_back_witness :
  dispatch Demo.env_conflict (DeleteRecord "products" "1") Demo.up
  = (inr (HTTPException 400 "IntegrityError"),
     set_pending []
       (log_call Rollback
          (delete_item_try Demo.env_conflict "products" "1" Demo.up).2))
  /\ database (dispatch Demo.env_conflict (DeleteRecord "products" "1") Demo.up).2
     = database Demo.up.
Proof.
  assert (Hknown : "products" ∈ AVAILABLE_TABLES Demo.up).
  { apply (bool_decide_unpack _). by vm_compute. }
  pose proof (write_commits_or_rolls_back Demo.env_conflict
                (DeleteRecord "products" "1") _ "products" Demo.up
                eq_refl eq_refl Hknown eq_refl) as H.
  destruct (delete_item_try Demo.env_conflict "products" "1" Demo.up)
    as [[resp|[status_code detail|errors|text]] w1] eqn:Hrun;
    try (vm_compute in Hrun; discriminate Hrun).
  assert (Htext : text = "IntegrityError").
  { vm_compute in Hrun. by injection Hrun as <- _. }
  subst text. destruct H as (Hd & pre & _ & Hdb).
  split; [exact Hd|]. apply Hdb. right. by eexists.
Defined.

(** C7 as stated fails: when the connection is lost after the commit of a
    create (while the columns are read for the answer), the answer is 400
    and the rollback is made, but the new row stays in the database. *)
Lemma late_failure_keeps_the_write :
  status (serve Demo.env_late
            (CreateRecord "products" [("product_name", VStr (text_of "Widget"))])
            Demo.up).1 = 400
  /\ head (trace (serve Demo.env_late
                    (CreateRecord "products" [("product_name", VStr (text_of "Widget"))])
                    Demo.up).2) = Some Rollback
  /\ length (rows_of (database Demo.up) "products") = 2%nat
  /\ length (rows_of (database (serve Demo.env_late
                    (CreateRecord "products" [("product_name", VStr (text_of "Widget"))])
                    Demo.up).2) "products") = 3%nat
  /\ ~ (forall env rq body w text w1,
          write_block env rq = Some body ->
          pending w = [] ->
          body w = (inr (Exception text), w1) ->
          database (serve env rq w).2 = database w).
Proof.
  split; [by vm_compute|]. split; [by vm_compute|].
  split; [by vm_compute|]. split; [by vm_compute|].
  intros H.
  assert (Hrun : create_item_try Demo.env_late "products"
                   [("product_name", VStr (text_of "Widget"))] Demo.up
                 = (inr (Exception "Lost connection"),
                    (create_item_try Demo.env_late "products"
                       [("product_name", VStr (text_of "Widget"))] Demo.up).2))
    by (by vm_compute).
  specialize (H Demo.env_late
                (CreateRecord "products" [("product_name", VStr (text_of "Widget"))])
                _ Demo.up "Lost connection" _ eq_refl eq_refl Hrun).
  apply (f_equal (fun d => length (rows_of d "products"))) in H.
  vm_compute in H. discriminate H.
Qed.

(** ** Errors raised in the [try] blocks *)

Lemma get_table_schema_try_unclassified (env : Env) (t : string) (w : World)
    (status_code : Z) (detail : string) (w1 : World) :
  get_table_schema_try env t w <> (inr (HTTPException status_code detail), w1).
Proof.
  unfold get_table_schema_try. exec; discriminate.
Qed.

(** C8: in every path operation that has a [try] block, on a known table
    and with accepted parameters, an [HTTPException] raised inside the block
    is the outcome of the operation, with the same status code and detail;
    the catch-all clause does not turn it into a 500 or a 400 and no
    rollback is made for it. *)
Theorem classified_errors_pass_through (env : Env) (rq : request)
    (body : M GenericResponse) (t : string) (w : World)
    (status_code : Z) (detail : string) (w1 : World) :
  try_block env rq = Some body ->
  table_of rq = Some t ->
  t ∈ AVAILABLE_TABLES w ->
  accepted rq = true ->
  pending w = [] ->
  body w = (inr (HTTPException status_code detail), w1) ->
  dispatch env rq w = (inr (HTTPException status_code detail), set_pending [] w1)
  /\ (serve env rq w).1 = HttpResponse status_code (Detail detail).
Proof.
  intros Hbody Ht Hknown Hacc Hidle Hrun.
  assert (H : dispatch env rq w
              = (inr (HTTPException status_code detail), set_pending [] w1)).
  { destruct rq as [ | |t'|t' skip limit|t' rid|t' item_data|t' rid item_data|t' rid];
      try discriminate Hbody;
      cbn in Hbody, Ht; injection Hbody as <-; injection Ht as ->; cbn [dispatch].
    - by apply get_table_schema_try_unclassified in Hrun.
    - rewrite read_items_accepted, read_items_fn_wraps, Hrun by done. done.
    - rewrite read_item_wraps, Hrun by done. done.
    - rewrite create_item_wraps, Hrun by done. done.
    - rewrite update_item_wraps, Hrun by done. done.
    - rewrite delete_item_wraps, Hrun by done. done. }
  split; [exact H|]. unfold serve. by rewrite H.
Qed.

Lemma classified_errors_pass_through_witness :
  (serve Demo.env (UpdateRecord "products" "999" []) Demo.up).1
  = HttpResponse 404 (Detail "Record not found in 'products'").
Proof.
  assert (Hknown : "products" ∈ AVAILABLE_TABLES Demo.up).
  { apply (bool_decide_unpack _). by vm_compute. }
  assert (Hrun : update_item_try Demo.env "products" "999" [] Demo.up
                 = (inr (HTTPException 404 "Record not found in 'products'"),
                    (update_item_try Demo.env "products" "999" [] Demo.up).2))
    by (by vm_compute).
  exact (proj2 (classified_errors_pass_through Demo.env
                  (UpdateRecord "products" "999" []) _ "products" Demo.up 404
                  "Record not found in 'products'" _
                  eq_refl eq_refl Hknown eq_refl eq_refl Hrun)).
Defined.

(** ** Identity lookups *)

Section FirstColumn.

Context (env : Env) (t pk0 : string) (rest : list string) (w : World).
Hypothesis declared : get_pk_constraint env t = Some (pk0 :: rest).

Lemma read_item_try_first_column (rid : string) :
  read_item_try (with_pk_constraint env t (Some [pk0])) t rid w
  = read_item_try env t rid w.
Proof.
  unfold read_item_try. exec; rewrite ?bool_decide_eq_true_2 by done; exec;
    first [reflexivity | congruence].
Qed.

Lemma update_item_try_first_column (rid : string) (item_data : list (string * value)) :
  update_item_try (with_pk_constraint env t (Some [pk0])) t rid item_data w
  = update_item_try env t rid item_data w.
Proof.
  unfold update_item_try. exec; rewrite ?bool_decide_eq_true_2 by done; exec;
    first [reflexivity | congruence].
Qed.

Lemma delete_item_try_first_column (rid : string) :
  delete_item_try (with_pk_constraint env t (Some [pk0])) t rid w
  = delete_item_try env t rid w.
Proof.
  unfold delete_item_try. exec; rewrite ?bool_decide_eq_true_2 by done; exec;
    first [reflexivity | congruence].
Qed.

End FirstColumn.

(** C4, as the code has it: for get, update and delete of a record on a
    known table, with a fresh session and the two introspection calls going
    through: when automap has no class for the table the answer is 404
    "Could not load model" and the primary key is not even read; otherwise,
    when the table has no primary key, the answer is 400 and the only calls
    made are the two introspection calls (no query); otherwise the query
    filters on the first primary-key column alone: the other columns of the
    key do not change the outcome, and when no row has [record_id] in that
    column the answer is 404. *)
Theorem identity_lookup (env : Env) (rq : request) (t : string) (w : World) :
  by_identity rq = true ->
  table_of rq = Some t ->
  t ∈ AVAILABLE_TABLES w ->
  pending w = [] ->
  fault env (Automap t) = None ->
  fault env (InspectPk t) = None ->
  if automap_classes env t then
    match default [] (get_pk_constraint env t) with
    | [] =>
        (serve env rq w).1
        = HttpResponse 400 (Detail ("Table '" +:+ t +:+ "' has no primary key"))
        /\ trace (serve env rq w).2 = [InspectPk t; Automap t] ++ trace w
    | pk0 :: _ =>
        dispatch env rq w = dispatch (with_pk_constraint env t (Some [pk0])) rq w
        /\ (QueryFirst t pk0 (record_id_of rq) ∈ trace (serve env rq w).2)
        /\ (fault env (QueryFirst t pk0 (record_id_of rq)) = None ->
            List.find (matches env pk0 (record_id_of rq))
              (instances t (rows_of (database w) t)) = None ->
            status (serve env rq w).1 = 404)
    end
  else
    (serve env rq w).1
    = HttpResponse 404 (Detail ("Could not load model for table '" +:+ t +:+ "'"))
    /\ trace (serve env rq w).2 = [Automap t] ++ trace w.
Proof.
  intros Hid Ht Hknown Hidle Hmap Hpk. unfold serve.
  destruct rq as [ | |t'|t' skip limit|t' rid|t' item_data|t' rid item_data|t' rid];
    try discriminate Hid; injection Ht as ->; cbn [dispatch record_id_of].
  - rewrite read_item_wraps by done.
    destruct (automap_classes env t) eqn:Hcls;
      [destruct (get_pk_constraint env t) as [[|pk0 rest]|] eqn:Hdecl|];
      cbn [default from_option id].
    2: { rewrite read_item_wraps by done.
         rewrite (read_item_try_first_column env t pk0 rest w Hdecl).
         split; [done|]. unfold read_item_try.
         exec; cbn;
           (split; [among | intros; cbn [database log_call] in *; congruence || done]). }
    all: unfold read_item_try; exec; done.
  - rewrite update_item_wraps by done.
    destruct (automap_classes env t) eqn:Hcls;
      [destruct (get_pk_constraint env t) as [[|pk0 rest]|] eqn:Hdecl|];
      cbn [default from_option id].
    2: { rewrite update_item_wraps by done.
         rewrite (update_item_try_first_column env t pk0 rest w Hdecl).
         split; [done|]. unfold update_item_try.
         exec; cbn;
           (split; [among | intros; cbn [database log_call] in *; congruence || done]). }
    all: unfold update_item_try; exec; done.
  - rewrite delete_item_wraps by done.
    destruct (automap_classes env t) eqn:Hcls;
      [destruct (get_pk_constraint env t) as [[|pk0 rest]|] eqn:Hdecl|];
      cbn [default from_option id].
    2: { rewrite delete_item_wraps by done.
         rewrite (delete_item_try_first_column env t pk0 rest w Hdecl).
         split; [done|]. unfold delete_item_try.
         exec; cbn;
           (split; [among | intros; cbn [database log_call] in *; congruence || done]). }
    all: unfold delete_item_try; exec; done.
Qed.

Lemma identity_lookup_witness :
  dispatch Demo.env (GetRecord "order_details" "2") Demo.up
  = dispatch (with_pk_constraint Demo.env "order_details" (Some ["order_id"]))
      (GetRecord "order_details" "2") Demo.up
  /\ (QueryFirst "order_details" "order_id" "2"
        ∈ trace (serve Demo.env (GetRecord "order_details" "2") Demo.up).2).
Proof.
  assert (Hknown : "order_details" ∈ AVAILABLE_TABLES Demo.up).
  { apply (bool_decide_unpack _). by vm_compute. }
  pose proof (identity_lookup Demo.env (GetRecord "order_details" "2")
                "order_details" Demo.up eq_refl eq_refl Hknown eq_refl
                eq_refl eq_refl) as H.
  split; [exact (proj1 H) | exact (proj1 (proj2 H))].
Defined.

(** C4 as stated fails: [audit_log] is in the table list and has no primary
    key, but automap has no class for it, so getting a record of it is
    answered 404 "Could not load model", not 400. *)
Lemma no_primary_key_not_always_400 :
  ("audit_log" ∈ AVAILABLE_TABLES Demo.up)
  /\ default [] (get_pk_constraint Demo.env "audit_log") = []
  /\ (serve Demo.env (GetRecord "audit_log" "1") Demo.up).1
     = HttpResponse 404 (Detail "Could not load model for table 'audit_log'")
  /\ ~ (forall env w rq t,
          by_identity rq = true ->
          table_of rq = Some t ->
          t ∈ AVAILABLE_TABLES w ->
          default [] (get_pk_constraint env t) = [] ->
          status (serve env rq w).1 = 400).
Proof.
  assert (Hknown : "audit_log" ∈ AVAILABLE_TABLES Demo.up).
  { apply (bool_decide_unpack _). by vm_compute. }
  split; [done|]. split; [done|]. split; [by vm_compute|].
  intros H.
  specialize (H Demo.env Demo.up (GetRecord "audit_log" "1") "audit_log"
                eq_refl eq_refl Hknown eq_refl).
  vm_compute in H. discriminate H.
Qed.

(** ** Pagination *)



(** ** Updates *)

Lemma find_instances (f : Item -> bool) (t : string) (rows : list Row) (it : Item) :
  List.find f (instances t rows) = Some it ->
  item_table it = t /\ rows !! item_pos it = Some (attrs it).
Proof.
  intros H. apply List.find_some in H as [H _].
  apply list_elem_of_In, elem_of_lookup_imap in H as (i & r & -> & Hr).
  done.
Qed.

Lemma body_get_fresh (item_data : list (string * value)) (key : string) :
  key ∉ item_data.*1 -> body_get item_data key = None.
Proof.
  unfold body_get. induction item_data as [|[k v] rest IH]; intros Hk; [done|].
  cbn [List.find fst]. rewrite bool_decide_eq_false_2 by set_solver.
  apply IH. set_solver.
Qed.

Lemma body_get_cons (k : string) (v : value) (rest : list (string * value)) (key : string) :
  body_get ((k, v) :: rest) key
  = if decide (k = key) then Some v else body_get rest key.
Proof.
  unfold body_get. cbn [List.find fst].
  case_decide; [by rewrite bool_decide_eq_true_2 | by rewrite bool_decide_eq_false_2].
Qed.

(** The loop of [update_item] sets the attributes the body names, and only
    attributes the instance already has. *)
Lemma patched_lookup (row : gmap string value) (item_data : list (string * value))
    (key : string) :
  NoDup item_data.*1 ->
  patched row item_data !! key
  = match row !! key, body_get item_data key with
    | Some _, Some v => Some v
    | old, _ => old
    end.
Proof.
  revert row. induction item_data as [|[k v] rest IH]; intros row Hnd.
  { cbn. by destruct (row !! key). }
  apply NoDup_cons in Hnd as [Hk Hnd]. cbn [patched]. rewrite body_get_cons.
  unfold hasattr. case_bool_decide as Hhas.
  - rewrite IH by done. unfold setattr. rewrite lookup_insert.
    case_decide as Hkey.
    + subst key. rewrite body_get_fresh by done.
      destruct Hhas as [old Hold]. by rewrite Hold.
    + done.
  - rewrite IH by done. case_decide as Hkey; [|done].
    subst key. apply eq_None_not_Some in Hhas. by rewrite Hhas.
Qed.

Lemma flush_changes (env : Env) (t : string) (pos : nat) (item_data : list (string * value))
    (row : gmap string value) (d : gmap string (list Row)) (rows : list Row) :
  d !! t = Some rows ->
  rows !! pos = Some row ->
  foldl (apply_change env) d (changes_of t pos row item_data)
  = <[t := <[pos := patched row item_data]> rows]> d.
Proof.
  revert row d rows.
  induction item_data as [|[k v] rest IH]; intros row d rows Hd Hrow;
    cbn [changes_of patched foldl].
  { by rewrite list_insert_id, insert_id. }
  destruct (hasattr row k); [|by apply IH].
  cbn [foldl apply_change]. unfold rows_of. rewrite Hd. cbn [default from_option id].
  rewrite (IH (setattr row k v) _ (<[pos := setattr row k v]> rows)).
  - by rewrite insert_insert_eq, list_insert_insert_eq.
  - rewrite lookup_insert_eq. f_equal.
    rewrite list_insert_alter. apply list_alter_ext; [|done].
    intros r Hr. congruence.
  - apply list_lookup_insert_eq. by eapply lookup_lt_Some.
Qed.

Section HealthyUpdate.

Context (env : Env) (t rid pk0 : string) (rest : list string) (w : World) (it : Item).
Hypothesis known : t ∈ AVAILABLE_TABLES w.
Hypothesis idle : pending w = [].
Hypothesis healthy : forall c, c ∈ update_calls t pk0 rid -> fault env c = None.
Hypothesis mapped : automap_classes env t = true.
Hypothesis declared : get_pk_constraint env t = Some (pk0 :: rest).
Hypothesis found :
  List.find (matches env pk0 rid) (instances t (rows_of (database w) t)) = Some it.

Lemma update_item_healthy (item_data : list (string * value)) :
  exists w',
    update_item env t rid item_data w
    = (inl (mkGenericResponse true ("Record updated in '" +:+ t +:+ "'")
              (Some (DataRecord
                       (serialize_row (patched (attrs it) item_data)
                          (col_name <$> get_columns env t))))
              None), w')
    /\ database w'
       = <[t := <[item_pos it := patched (attrs it) item_data]> (rows_of (database w) t)]>
           (database w)
    /\ trace w' = reverse (update_calls t pk0 rid) ++ trace w.
Proof.
  pose proof (find_instances _ _ _ _ found) as [Htable Hrow].
  assert (Hd : database w !! t = Some (rows_of (database w) t)).
  { unfold rows_of in *. destruct (database w !! t); [done|].
    cbn in Hrow. by rewrite lookup_nil in Hrow. }
  pose proof (healthy (Automap t) ltac:(among)) as Hf1.
  pose proof (healthy (InspectPk t) ltac:(among)) as Hf2.
  pose proof (healthy (QueryFirst t pk0 rid) ltac:(among)) as Hf3.
  pose proof (healthy Commit ltac:(among)) as Hf4.
  pose proof (healthy (Refresh t) ltac:(among)) as Hf5.
  pose proof (healthy (InspectColumns t) ltac:(among)) as Hf6.
  assert (Hflush :
    forall w0, database w0 = database w ->
      pending w0 = changes_of t (item_pos it) (attrs it) item_data ->
      database (flush env w0)
      = <[t := <[item_pos it := patched (attrs it) item_data]> (rows_of (database w) t)]>
          (database w)).
  { intros w0 Hw0 Hp. unfold flush. cbn [database set_pending set_database].
    rewrite Hw0, Hp. by apply flush_changes. }
  eexists. rewrite update_item_wraps by done. unfold update_item_try.
  autorewrite with run. rewrite Hf1. cbv beta iota. rewrite mapped.
  autorewrite with run. rewrite Hf2, declared. cbv beta iota delta [from_option id].
  autorewrite with run. rewrite Hf3. cbv beta iota.
  cbn [database log_call]. rewrite found.
  autorewrite with run. cbv beta iota. autorewrite with run. rewrite Hf4.
  cbv beta iota. autorewrite with run.
  cbn [item_table item_pos with_attrs]. rewrite Htable, Hf5.
  cbn [database log_call]. rewrite Hflush.
  2: { done. }
  2: { cbn [pending log_call set_pending]. by rewrite idle. }
  unfold rows_of at 1. rewrite lookup_insert_eq. cbn [default from_option id].
  rewrite list_lookup_insert_eq by (by eapply lookup_lt_Some).
  autorewrite with run. rewrite Hf6. cbv beta iota. autorewrite with run.
  cbn [except_write attrs with_attrs].
  split; [reflexivity|]. split; [|reflexivity].
  cbn [database log_call set_pending]. apply Hflush; [done|].
  cbn [pending log_call set_pending]. by rewrite idle.
Qed.

End HealthyUpdate.





(** * Further properties *)

(** ** The serializer and the decoder *)

(** X1: the serialized record has exactly the columns asked for as its keys,
    whatever attributes the row has, and none of its values is a bytes or
    bytearray object. *)
Theorem serialize_row_keys_and_text (row : gmap string value) (columns : list string) :
  dom (serialize_row row columns) = list_to_set columns
  /\ forall col v,
       serialize_row row columns !! col = Some v ->
       forall payload, v <> VBytes payload /\ v <> VByteArray payload.
Proof.
  split.
  - apply set_eq. intros c. rewrite elem_of_dom, elem_of_list_to_set.
    unfold serialize_row. rewrite serialize_loop_lookup.
    case_decide as Hc; [|rewrite lookup_empty].
    + split; [done | eauto].
    + split; [by intros [? ?] | done].
  - intros col v Hv payload. unfold serialize_row in Hv.
    rewrite serialize_loop_lookup in Hv. case_decide; [|by rewrite lookup_empty in Hv].
    injection Hv as <-. by destruct (getattr row col VNone).
Qed.

(** X2: a byte that cannot start a character (0x80..0xC1 or 0xF5 and above)
    standing between a well-formed text and the rest of the payload is
    dropped, and decoding goes on after it. *)
Theorem utf8_invalid_start_dropped (text : list Z) (b : Z) (rest : list Z) :
  Forall Utf8.scalar text ->
  0x80 <= b < 0xC2 \/ 0xF5 <= b ->
  Utf8.decode_ignore (Utf8.encode text ++ b :: rest)
  = text ++ Utf8.decode_ignore rest.
Proof.
  intros Htext Hb. rewrite utf8_decode_encode by done. f_equal.
  cbn [Utf8.decode_ignore]. repeat settle_test; reflexivity.
Qed.

Lemma utf8_invalid_start_dropped_witness :
  Utf8.decode_ignore (Utf8.encode [0x43; 0xE9; 0x20AC] ++ 0xFF :: Utf8.encode [0x1F600])
  = [0x43; 0xE9; 0x20AC] ++ Utf8.decode_ignore (Utf8.encode [0x1F600]).
Proof.
  apply utf8_invalid_start_dropped.
  - repeat constructor; unfold Utf8.scalar; lia.
  - right. lia.
Defined.

(** X3: the decoded text never has more code points than the payload has
    bytes. *)
Theorem utf8_decode_no_longer (s : list Z) :
  (length (Utf8.decode_ignore s) <= length s)%nat.
Proof.
  assert (H : forall n s, (length s <= n)%nat ->
                (length (Utf8.decode_ignore s) <= length s)%nat).
  { clear s. induction n as [|n IH]; intros s Hn.
    { destruct s; [done | cbn in Hn; lia]. }
    destruct s as [|ch s1]; [done|].
    cbn [Utf8.decode_ignore]. unfold Utf8.is_continuation.
    repeat split_test; cbn [length] in *;
      repeat match goal with
             | |- context [length (Utf8.decode_ignore ?l)] =>
                 lazymatch goal with
                 | _ : (length (Utf8.decode_ignore l) <= length l)%nat |- _ => fail
                 | _ => assert (length (Utf8.decode_ignore l) <= length l)%nat
                          by (apply IH; cbn [length]; lia)
                 end
             end; cbn [length] in *; lia. }
  by apply (H (length s)).
Qed.

(** ** What the [GET] routes never do *)

Ltac settle_read :=
  cbn [fst snd trace database pending set_pending log_call];
  split; [reflexivity|];
  match goal with
  | |- exists pre, ?l = pre ++ ?tr /\ _ =>
      let p := calls_since l tr in exists p
  end;
  split; [reflexivity | repeat constructor].

Lemma reads_quiet (env : Env) (rq : request) (w : World) :
  read_only rq = true ->
  database (dispatch env rq w).2 = database w
  /\ exists pre, trace (dispatch env rq w).2 = pre ++ trace w
       /\ Forall (fun c => mutating c = false) pre.
Proof.
  intros Hread.
  destruct rq as [ | |t|t skip limit|t rid|t item_data|t rid item_data|t rid];
    try discriminate Hread; cbn [dispatch].
  - unfold root. exec. settle_read.
  - unfold list_tables. exec. settle_read.
  - unfold get_table_schema, get_table_schema_try.
    exec; case_bool_decide; exec; settle_read.
  - destruct (accepted (ListRecords t skip limit)) eqn:Hacc.
    + rewrite read_items_accepted by done. unfold read_items_fn, read_items_try.
      exec; case_bool_decide; exec; settle_read.
    + destruct (read_items_rejected env t skip limit Hacc) as [errors ->].
      unfold raise. settle_read.
  - unfold read_item, read_item_try.
    exec; case_bool_decide; exec; settle_read.
Qed.

(** X4: a request of a [GET] route (root, table list, schema, list records,
    get record) leaves the database as it is, whatever fails on the way, and
    none of the calls it makes adds to, deletes from, commits or rolls back
    the session. *)
Theorem reads_change_nothing (env : Env) (rq : request) (w : World) :
  read_only rq = true ->
  database (serve env rq w).2 = database w
  /\ exists pre, trace (serve env rq w).2 = pre ++ trace w
       /\ Forall (fun c => mutating c = false) pre.
Proof.
  intros Hread. pose proof (reads_quiet env rq w Hread) as H.
  unfold serve. by destruct (dispatch env rq w).
Qed.

Lemma reads_change_nothing_witness :
  database (serve Demo.env_late (GetRecord "products" "1") Demo.up).2 = database Demo.up.
Proof.
  exact (proj1 (reads_change_nothing Demo.env_late (GetRecord "products" "1")
                  Demo.up eq_refl)).
Defined.

(** X5: in the three [GET] routes that have a [try] block (schema, list
    records, get record), on a known table, an exception raised in the block
    that is not an [HTTPException] is answered 500 with the text of the
    exception as detail, and no rollback is made. *)
Theorem read_failures_are_500 (env : Env) (rq : request) (body : M GenericResponse)
    (t : string) (w : World) (text : string) (w1 : World) :
  read_only rq = true ->
  try_block env rq = Some body ->
  table_of rq = Some t ->
  t ∈ AVAILABLE_TABLES w ->
  accepted rq = true ->
  pending w = [] ->
  body w = (inr (Exception text), w1) ->
  (serve env rq w).1 = HttpResponse 500 (Detail text)
  /\ trace (serve env rq w).2 = trace w1.
Proof.
  intros Hread Hbody Ht Hknown Hacc Hidle Hrun. unfold serve.
  destruct rq as [ | |t'|t' skip limit|t' rid|t' item_data|t' rid item_data|t' rid];
    try discriminate Hread; try discriminate Hbody;
    cbn in Hbody, Ht; injection Hbody as <-; injection Ht as ->; cbn [dispatch].
  - rewrite get_table_schema_wraps, Hrun by done. done.
  - rewrite read_items_accepted, read_items_fn_wraps, Hrun by done. done.
  - rewrite read_item_wraps, Hrun by done. done.
Qed.

Lemma read_failures_are_500_witness :
  (serve Demo.env_late (GetRecord "products" "1") Demo.up).1
  = HttpResponse 500 (Detail "Lost connection").
Proof.
  assert (Hknown : "products" ∈ AVAILABLE_TABLES Demo.up).
  { apply (bool_decide_unpack _). by vm_compute. }
  assert (Hrun : read_item_try Demo.env_late "products" "1" Demo.up
                 = (inr (Exception "Lost connection"),
                    (read_item_try Demo.env_late "products" "1" Demo.up).2))
    by (by vm_compute).
  exact (proj1 (read_failures_are_500 Demo.env_late (GetRecord "products" "1") _
                  "products" Demo.up "Lost connection" _
                  eq_refl eq_refl eq_refl Hknown eq_refl eq_refl Hrun)).
Defined.

(** ** Sessions, the table list and the model classes *)

Ltac close_session :=
  match goal with
  | |- context [match ?x with pair _ _ => _ end] => by destruct x
  end.

Lemma dispatch_idle (env : Env) (rq : request) (w : World) :
  pending w = [] -> pending (dispatch env rq w).2 = [].
Proof.
  intros Hidle.
  destruct rq as [ | |t|t skip limit|t rid|t item_data|t rid item_data|t rid];
    cbn [dispatch].
  - done.
  - done.
  - unfold get_table_schema, get_table_schema_try.
    exec; case_bool_decide; exec; done.
  - destruct (accepted (ListRecords t skip limit)) eqn:Hacc.
    + rewrite read_items_accepted by done. unfold get_db. close_session.
    + by destruct (read_items_rejected env t skip limit Hacc) as [errors ->].
  - unfold read_item, get_db. close_session.
  - unfold create_item, get_db. close_session.
  - unfold update_item, get_db. close_session.
  - unfold delete_item, get_db. close_session.
Qed.



(** X7: when the tables are listed at startup, the table list is the list
    the inspector gave, and it stays so whatever requests are served: the
    table listing always reports that list and its length. *)
Theorem startup_lists_tables (env : Env) (d : gmap string (list Row))
    (rqs : list request) :
  fault env InspectTableNames = None ->
  AVAILABLE_TABLES (serve_all env rqs (startup_event env (boot d)).2)
  = get_table_names env
  /\ (serve env GetTables (serve_all env rqs (startup_event env (boot d)).2)).1
     = HttpResponse 200
         (Envelope
            (mkGenericResponse true
               ("Found " +:+ pretty (length (get_table_names env)) +:+ " tables")
               (Some (DataTables (get_table_names env))) None)).
Proof.
  intros Hup.
  assert (Htables : AVAILABLE_TABLES (serve_all env rqs (startup_event env (boot d)).2)
                    = get_table_names env).
  { rewrite serve_all_tables. unfold startup_event, get_all_tables. exec. done. }
  split; [exact Htables|].
  unfold serve. cbn [dispatch]. unfold list_tables. exec. by rewrite Htables.
Qed.

Lemma startup_lists_tables_witness :
  (serve Demo.env GetTables
     (serve_all Demo.env [DeleteRecord "products" "1"] Demo.up)).1
  = HttpResponse 200
      (Envelope (mkGenericResponse true "Found 3 tables"
                   (Some (DataTables ["audit_log"; "order_details"; "products"])) None)).
Proof.
  exact (proj2 (startup_lists_tables Demo.env Demo.db [DeleteRecord "products" "1"]
                  eq_refl)).
Defined.

Ltac settle_first :=
  cbn [fst snd trace database pending set_pending log_call flush set_database];
  match goal with
  | |- exists pre, ?l = pre ++ ?tr =>
      let p := calls_since l tr in exists p
  end;
  reflexivity.

Lemma model_first (env : Env) (rq : request) (t : string) (w : World) :
  uses_model rq = true ->
  table_of rq = Some t ->
  t ∈ AVAILABLE_TABLES w ->
  accepted rq = true ->
  exists pre, trace (dispatch env rq w).2 = pre ++ Automap t :: trace w.
Proof.
  intros Huses Ht Hknown Hacc.
  destruct rq as [ | |t'|t' skip limit|t' rid|t' item_data|t' rid item_data|t' rid];
    try discriminate Huses; injection Ht as ->; cbn [dispatch].
  - rewrite read_items_accepted by done. unfold read_items_fn, read_items_try.
    exec; case_bool_decide; [done|]; exec; settle_first.
  - unfold read_item, read_item_try.
    exec; case_bool_decide; [done|]; exec; settle_first.
  - unfold create_item, create_item_try.
    exec; case_bool_decide; [done|]; exec; settle_first.
  - unfold update_item, update_item_try.
    exec; case_bool_decide; [done|]; exec; settle_first.
  - unfold delete_item, delete_item_try.
    exec; case_bool_decide; [done|]; exec; settle_first.
Qed.

(** X8: every record operation (list, get, create, update, delete) on a
    known table, with accepted parameters, resolves the model class of the
    table before any other call: the class is looked up again for each
    request, also for those that end in an error. *)
Theorem model_resolved_first (env : Env) (rq : request) (t : string) (w : World) :
  uses_model rq = true ->
  table_of rq = Some t ->
  t ∈ AVAILABLE_TABLES w ->
  accepted rq = true ->
  exists pre, trace (serve env rq w).2 = pre ++ Automap t :: trace w.
Proof.
  intros Huses Ht Hknown Hacc.
  pose proof (model_first env rq t w Huses Ht Hknown Hacc) as H.
  unfold serve. by destruct (dispatch env rq w).
Qed.

Lemma model_resolved_first_witness :
  exists pre,
    trace (serve Demo.env (GetRecord "audit_log" "1") Demo.up).2
    = pre ++ Automap "audit_log" :: trace Demo.up.
Proof.
  assert (Hknown : "audit_log" ∈ AVAILABLE_TABLES Demo.up).
  { apply (bool_decide_unpack _). by vm_compute. }
  exact (model_resolved_first Demo.env (GetRecord "audit_log" "1") "audit_log"
           Demo.up eq_refl eq_refl Hknown eq_refl).
Defined.

(** ** Pages *)

Lemma read_items_page (env : Env) (t : string) (skip limit : option Z)
    (w : World) (resp : GenericResponse) (w' : World) :
  accepted (ListRecords t skip limit) = true ->
  dispatch env (ListRecords t skip limit) w = (inl resp, w') ->
  page_items resp
  = (fun item => serialize_row (attrs item) (col_name <$> get_columns env t))
      <$> take (Z.to_nat (default 10 limit))
            (drop (Z.to_nat (default 0 skip)) (instances t (rows_of (database w) t)))
  /\ message resp
     = "Retrieved "
         +:+ pretty (length (take (Z.to_nat (default 10 limit))
                               (drop (Z.to_nat (default 0 skip))
                                  (instances t (rows_of (database w) t)))))
         +:+ " records from '" +:+ t +:+ "'".
Proof.
  intros Hacc. cbn [dispatch]. rewrite (read_items_accepted env t skip limit Hacc).
  unfold read_items_fn, read_items_try.
  exec; case_bool_decide; exec; intros [= <- <-]; done.
Qed.

(** X9: two pages asked one after the other, the second starting where the
    first ends, hold together the rows of the page that spans both: no row is
    lost or repeated between consecutive pages. *)
Theorem pages_concatenate (env : Env) (t : string) (skip l1 l2 : Z)
    (w w1 w2 w3 : World) (r1 r2 r12 : GenericResponse) :
  0 <= skip -> 1 <= l1 -> 1 <= l2 -> l1 + l2 <= 100 ->
  dispatch env (ListRecords t (Some skip) (Some l1)) w = (inl r1, w1) ->
  dispatch env (ListRecords t (Some (skip + l1)) (Some l2)) w1 = (inl r2, w2) ->
  dispatch env (ListRecords t (Some skip) (Some (l1 + l2))) w = (inl r12, w3) ->
  page_items r1 ++ page_items r2 = page_items r12.
Proof.
  intros Hskip Hl1 Hl2 Hsum H1 H2 H12.
  assert (Hdb : database w1 = database w).
  { pose proof (reads_quiet env (ListRecords t (Some skip) (Some l1)) w eq_refl) as [H _].
    by rewrite H1 in H. }
  apply read_items_page in H1 as [-> _];
    [|cbn; repeat (apply andb_true_intro; split); lia].
  apply read_items_page in H2 as [-> _];
    [|cbn; repeat (apply andb_true_intro; split); lia].
  apply read_items_page in H12 as [-> _];
    [|cbn; repeat (apply andb_true_intro; split); lia].
  cbn [default from_option id]. rewrite Hdb, <- fmap_app. f_equal.
  rewrite !Z2Nat.inj_add by lia. rewrite <- drop_drop.
  apply take_take_drop.
Qed.

Lemma pages_concatenate_witness :
  exists r1 w1 r2 w2 r12 w3,
    dispatch Demo.env (ListRecords "order_details" (Some 0) (Some 1)) Demo.up
    = (inl r1, w1)
    /\ dispatch Demo.env (ListRecords "order_details" (Some (0 + 1)) (Some 2)) w1
       = (inl r2, w2)
    /\ dispatch Demo.env (ListRecords "order_details" (Some 0) (Some (1 + 2))) Demo.up
       = (inl r12, w3)
    /\ page_items r1 ++ page_items r2 = page_items r12.
Proof.
  destruct (dispatch Demo.env (ListRecords "order_details" (Some 0) (Some 1)) Demo.up)
    as [[r1|e] w1] eqn:H1; [|vm_compute in H1; discriminate H1].
  assert (Hw1 : w1 = (dispatch Demo.env
                        (ListRecords "order_details" (Some 0) (Some 1)) Demo.up).2)
    by (by rewrite H1).
  destruct (dispatch Demo.env (ListRecords "order_details" (Some (0 + 1)) (Some 2)) w1)
    as [[r2|e] w2] eqn:H2; [|rewrite Hw1 in H2; vm_compute in H2; discriminate H2].
  destruct (dispatch Demo.env (ListRecords "order_details" (Some 0) (Some (1 + 2)))
              Demo.up)
    as [[r12|e] w3] eqn:H12; [|vm_compute in H12; discriminate H12].
  exists r1, w1, r2, w2, r12, w3.
  do 3 (split; [first [reflexivity | assumption]|]).
  apply (pages_concatenate Demo.env "order_details" 0 1 2 Demo.up w1 w2 w3);
    first [lia | assumption].
Defined.



(** ** Records that go through *)

Lemma find_first {A : Type} (f : A -> bool) (l : list A) (x : A) :
  List.find f l = Some x
  <-> exists i, l !! i = Some x /\ f x = true
        /\ forall j y, (j < i)%nat -> l !! j = Some y -> f y = false.
Proof.
  induction l as [|a l IH]; cbn [List.find].
  { split; [done | by intros (i & Hi & _)]. }
  destruct (f a) eqn:Hfa.
  - split.
    + intros [= ->]. exists 0%nat. split; [done|]. split; [done|]. intros j y Hj. lia.
    + intros (i & Hi & Hfx & Hbefore). destruct i as [|i]; [by injection Hi as ->|].
      specialize (Hbefore 0%nat a ltac:(lia) eq_refl). congruence.
  - rewrite IH. split.
    + intros (i & Hi & Hfx & Hbefore). exists (S i). split; [done|]. split; [done|].
      intros [|j] y Hj Hy; [by injection Hy as <- | apply (Hbefore j); [lia | done]].
    + intros (i & Hi & Hfx & Hbefore). destruct i as [|i].
      * injection Hi as ->. congruence.
      * exists i. split; [done|]. split; [done|].
        intros j y Hj Hy. apply (Hbefore (S j)); [lia | done].
Qed.

Lemma instances_lookup (t : string) (rows : list Row) (i : nat) :
  instances t rows !! i = mkItem t i <$> rows !! i.
Proof. apply list_lookup_imap. Qed.

Lemma find_instances_first (f : Item -> bool) (t : string) (rows : list Row) (it : Item) :
  List.find f (instances t rows) = Some it ->
  it = mkItem t (item_pos it) (attrs it)
  /\ rows !! item_pos it = Some (attrs it)
  /\ f it = true
  /\ forall j r, (j < item_pos it)%nat -> rows !! j = Some r -> f (mkItem t j r) = false.
Proof.
  intros (i & Hi & Hf & Hbefore)%find_first.
  rewrite instances_lookup in Hi. destruct (rows !! i) as [r|] eqn:Hr; [|done].
  injection Hi as <-. cbn. split; [done|]. split; [done|]. split; [done|].
  intros j r' Hj Hr'. apply (Hbefore j); [done|]. by rewrite instances_lookup, Hr'.
Qed.

Lemma find_instances_none (f : Item -> bool) (t : string) (rows : list Row) :
  List.find f (instances t rows) = None ->
  forall j r, rows !! j = Some r -> f (mkItem t j r) = false.
Proof.
  intros Hnone j r Hr. apply (List.find_none _ _ Hnone).
  apply list_elem_of_In, list_elem_of_lookup. exists j.
  by rewrite instances_lookup, Hr.
Qed.

Lemma find_instances_at (f : Item -> bool) (t : string) (rows : list Row) (i : nat)
    (r : Row) :
  rows !! i = Some r ->
  f (mkItem t i r) = true ->
  (forall j r', (j < i)%nat -> rows !! j = Some r' -> f (mkItem t j r') = false) ->
  List.find f (instances t rows) = Some (mkItem t i r).
Proof.
  intros Hr Hf Hbefore. apply find_first. exists i.
  split; [by rewrite instances_lookup, Hr|]. split; [done|].
  intros j y Hj Hy. rewrite instances_lookup in Hy.
  destruct (rows !! j) as [r'|] eqn:Hr'; [|done]. injection Hy as <-.
  by apply (Hbefore j).
Qed.

Lemma rows_of_insert (d : gmap string (list Row)) (t : string) (rows : list Row) :
  rows_of (<[t := rows]> d) t = rows.
Proof. unfold rows_of. by rewrite lookup_insert_eq. Qed.

Section Healthy.

Context (env : Env) (t : string) (w : World).
Hypothesis known : t ∈ AVAILABLE_TABLES w.
Hypothesis idle : pending w = [].
Hypothesis mapped : automap_classes env t = true.

Lemma create_item_healthy (item_data : list (string * value)) :
  (forall c, c ∈ create_calls t -> fault env c = None) ->
  exists w',
    create_item env t item_data w
    = (inl (mkGenericResponse true ("Record created in '" +:+ t +:+ "'")
              (Some (DataRecord
                       (serialize_row (server_defaults env t (list_to_map item_data))
                          (col_name <$> get_columns env t))))
              None), w')
    /\ database w'
       = <[t := rows_of (database w) t
                  ++ [server_defaults env t (list_to_map item_data)]]> (database w).
Proof.
  intros healthy.
  pose proof (healthy (Automap t) ltac:(among)) as Hf1.
  pose proof (healthy (Construct t) ltac:(among)) as Hf2.
  pose proof (healthy (SessionAdd t) ltac:(among)) as Hf3.
  pose proof (healthy Commit ltac:(among)) as Hf4.
  pose proof (healthy (Refresh t) ltac:(among)) as Hf5.
  pose proof (healthy (InspectColumns t) ltac:(among)) as Hf6.
  eexists. rewrite create_item_wraps by done. unfold create_item_try.
  autorewrite with run. rewrite Hf1. cbv beta iota. rewrite mapped.
  autorewrite with run. rewrite Hf2. cbv beta iota.
  autorewrite with run. cbn [item_table item_pos attrs]. rewrite Hf3. cbv beta iota.
  autorewrite with run. rewrite Hf4. cbv beta iota.
  autorewrite with run. cbn [item_table item_pos attrs]. rewrite Hf5.
  unfold flush.
  cbn [database pending trace AVAILABLE_TABLES set_pending set_database log_call].
  rewrite idle. cbn [app foldl apply_change].
  rewrite rows_of_insert, lookup_app_r by done. rewrite Nat.sub_diag.
  cbn [lookup list_lookup].
  autorewrite with run. rewrite Hf6. cbv beta iota. autorewrite with run.
  cbn [except_write attrs with_attrs database set_pending].
  split; reflexivity.
Qed.

Context (rid pk0 : string) (rest : list string).
Hypothesis declared : get_pk_constraint env t = Some (pk0 :: rest).

Lemma read_item_healthy (it : Item) :
  (forall c, c ∈ get_calls t pk0 rid -> fault env c = None) ->
  List.find (matches env pk0 rid) (instances t (rows_of (database w) t)) = Some it ->
  (read_item env t rid w).1
  = inl (mkGenericResponse true ("Retrieved record from '" +:+ t +:+ "'")
           (Some (DataRecord
                    (serialize_row (attrs it) (col_name <$> get_columns env t))))
           None).
Proof.
  intros healthy found.
  pose proof (healthy (Automap t) ltac:(among)) as Hf1.
  pose proof (healthy (InspectPk t) ltac:(among)) as Hf2.
  pose proof (healthy (QueryFirst t pk0 rid) ltac:(among)) as Hf3.
  pose proof (healthy (InspectColumns t) ltac:(among)) as Hf4.
  rewrite read_item_wraps by done. unfold read_item_try.
  autorewrite with run. rewrite Hf1. cbv beta iota. rewrite mapped.
  autorewrite with run. rewrite Hf2, declared. cbv beta iota delta [from_option id].
  autorewrite with run. rewrite Hf3. cbv beta iota.
  cbn [database log_call]. rewrite found.
  autorewrite with run. rewrite Hf4. cbv beta iota. autorewrite with run.
  reflexivity.
Qed.

Lemma read_item_missing :
  (forall c, c ∈ get_calls t pk0 rid -> fault env c = None) ->
  List.find (matches env pk0 rid) (instances t (rows_of (database w) t)) = None ->
  (read_item env t rid w).1
  = inr (HTTPException 404
           ("Record not found in '" +:+ t +:+ "' with " +:+ pk0 +:+ "=" +:+ rid)).
Proof.
  intros healthy missing.
  pose proof (healthy (Automap t) ltac:(among)) as Hf1.
  pose proof (healthy (InspectPk t) ltac:(among)) as Hf2.
  pose proof (healthy (QueryFirst t pk0 rid) ltac:(among)) as Hf3.
  rewrite read_item_wraps by done. unfold read_item_try.
  autorewrite with run. rewrite Hf1. cbv beta iota. rewrite mapped.
  autorewrite with run. rewrite Hf2, declared. cbv beta iota delta [from_option id].
  autorewrite with run. rewrite Hf3. cbv beta iota.
  cbn [database log_call]. rewrite missing.
  reflexivity.
Qed.

Lemma delete_item_healthy (it : Item) :
  (forall c, c ∈ delete_calls t pk0 rid -> fault env c = None) ->
  List.find (matches env pk0 rid) (instances t (rows_of (database w) t)) = Some it ->
  exists w',
    delete_item env t rid w
    = (inl (mkGenericResponse true ("Record deleted from '" +:+ t +:+ "'")
              (Some (DataDeleted rid)) None), w')
    /\ database w'
       = <[t := delete (item_pos it) (rows_of (database w) t)]> (database w).
Proof.
  intros healthy found.
  pose proof (find_instances _ _ _ _ found) as [Htable Hrow].
  pose proof (healthy (Automap t) ltac:(among)) as Hf1.
  pose proof (healthy (InspectPk t) ltac:(among)) as Hf2.
  pose proof (healthy (QueryFirst t pk0 rid) ltac:(among)) as Hf3.
  pose proof (healthy (SessionDelete t) ltac:(among)) as Hf4.
  pose proof (healthy Commit ltac:(among)) as Hf5.
  eexists. rewrite delete_item_wraps by done. unfold delete_item_try.
  autorewrite with run. rewrite Hf1. cbv beta iota. rewrite mapped.
  autorewrite with run. rewrite Hf2, declared. cbv beta iota delta [from_option id].
  autorewrite with run. rewrite Hf3. cbv beta iota.
  cbn [database log_call]. rewrite found.
  autorewrite with run. rewrite Htable, Hf4. cbv beta iota.
  autorewrite with run. rewrite Hf5. cbv beta iota. autorewrite with run.
  unfold flush.
  cbn [except_write database pending trace AVAILABLE_TABLES set_pending set_database
       log_call].
  rewrite idle. cbn [app foldl apply_change].
  split; reflexivity.
Qed.

End Healthy.

Lemma serve_response (env : Env) (rq : request) (w : World) :
  (serve env rq w).1 = render (dispatch env rq w).1.
Proof. unfold serve. by destruct (dispatch env rq w). Qed.

Lemma serve_world (env : Env) (rq : request) (w : World) :
  (serve env rq w).2 = (dispatch env rq w).2.
Proof. unfold serve. by destruct (dispatch env rq w). Qed.

Lemma served_world_ready (env : Env) (rq : request) (t : string) (w : World) :
  t ∈ AVAILABLE_TABLES w ->
  pending w = [] ->
  t ∈ AVAILABLE_TABLES (serve env rq w).2 /\ pending (serve env rq w).2 = [].
Proof.
  intros Hknown Hidle. rewrite serve_world. split.
  - by rewrite (proj2 (dispatch_classified env rq w)).
  - by apply dispatch_idle.
Qed.

Lemma create_outcome (env : Env) (t : string) (item_data : list (string * value))
    (w : World) :
  t ∈ AVAILABLE_TABLES w ->
  pending w = [] ->
  automap_classes env t = true ->
  (forall c, c ∈ create_calls t -> fault env c = None) ->
  (serve env (CreateRecord t item_data) w).1
  = HttpResponse 200
      (Envelope
         (mkGenericResponse true ("Record created in '" +:+ t +:+ "'")
            (Some (DataRecord
                     (serialize_row (server_defaults env t (list_to_map item_data))
                        (col_name <$> get_columns env t))))
            None))
  /\ rows_of (database (serve env (CreateRecord t item_data) w).2) t
     = rows_of (database w) t ++ [server_defaults env t (list_to_map item_data)]
  /\ (forall t', t' <> t ->
        database (serve env (CreateRecord t item_data) w).2 !! t' = database w !! t').
Proof.
  intros Hknown Hidle Hmapped Hhealthy.
  destruct (create_item_healthy env t w Hknown Hidle Hmapped item_data Hhealthy)
    as (w' & Hrun & Hdb).
  rewrite serve_response, serve_world. cbn [dispatch]. rewrite Hrun.
  cbn [fst snd render]. rewrite Hdb.
  split; [done|]. split; [apply rows_of_insert|].
  intros t' Hne. by rewrite lookup_insert_ne.
Qed.





Lemma delete_outcome (env : Env) (t rid pk0 : string)
    (rest : list string) (w : World) (it : Item) :
  t ∈ AVAILABLE_TABLES w ->
  pending w = [] ->
  automap_classes env t = true ->
  get_pk_constraint env t = Some (pk0 :: rest) ->
  (forall c, c ∈ delete_calls t pk0 rid -> fault env c = None) ->
  List.find (matches env pk0 rid) (instances t (rows_of (database w) t)) = Some it ->
  (serve env (DeleteRecord t rid) w).1
  = HttpResponse 200
      (Envelope (mkGenericResponse true ("Record deleted from '" +:+ t +:+ "'")
                   (Some (DataDeleted rid)) None))
  /\ rows_of (database (serve env (DeleteRecord t rid) w).2) t
     = delete (item_pos it) (rows_of (database w) t)
  /\ (forall j r, (j < item_pos it)%nat -> rows_of (database w) t !! j = Some r ->
        matches env pk0 rid (mkItem t j r) = false)
  /\ (forall t', t' <> t ->
        database (serve env (DeleteRecord t rid) w).2 !! t' = database w !! t').
Proof.
  intros Hknown Hidle Hmapped Hdecl Hhealthy Hfound.
  destruct (delete_item_healthy env t w Hknown Hidle Hmapped rid pk0 rest Hdecl it
              Hhealthy Hfound) as (w' & Hrun & Hdb).
  rewrite serve_response, serve_world. cbn [dispatch]. rewrite Hrun.
  cbn [fst snd render]. rewrite Hdb.
  split; [done|]. split; [apply rows_of_insert|]. split.
  - by apply (find_instances_first _ _ _ _ Hfound).
  - intros t' Hne. by rewrite lookup_insert_ne.
Qed.



(** X14: a get of [record_id] right after a delete of [record_id] that went
    through answers 404 when no other row of the table has [record_id] in
    the first primary-key column; when another row has it (rows that differ
    only in the later columns of a composite key), the get answers with the
    first of those rows. *)
Theorem delete_then_get (env : Env) (t rid pk0 : string) (rest : list string)
    (w : World) (it : Item) :
  t ∈ AVAILABLE_TABLES w ->
  pending w = [] ->
  automap_classes env t = true ->
  get_pk_constraint env t = Some (pk0 :: rest) ->
  (forall c, c ∈ delete_calls t pk0 rid -> fault env c = None) ->
  (forall c, c ∈ get_calls t pk0 rid -> fault env c = None) ->
  List.find (matches env pk0 rid) (instances t (rows_of (database w) t)) = Some it ->
  (serve env (GetRecord t rid) (serve env (DeleteRecord t rid) w).2).1
  = match List.find (matches env pk0 rid)
            (instances t (delete (item_pos it) (rows_of (database w) t))) with
    | Some next =>
        HttpResponse 200
          (Envelope
             (mkGenericResponse true ("Retrieved record from '" +:+ t +:+ "'")
                (Some (DataRecord
                         (serialize_row (attrs next) (col_name <$> get_columns env t))))
                None))
    | None =>
        HttpResponse 404
          (Detail ("Record not found in '" +:+ t +:+ "' with " +:+ pk0 +:+ "=" +:+ rid))
    end.
Proof.
  intros Hknown Hidle Hmapped Hdecl Hdelete Hget Hfound.
  destruct (delete_outcome env t rid pk0 rest w it Hknown Hidle Hmapped
              Hdecl Hdelete Hfound) as (_ & Hrows & _).
  destruct (served_world_ready env (DeleteRecord t rid) t w Hknown Hidle)
    as [Hknown' Hidle'].
  rewrite serve_response. cbn [dispatch]. rewrite <- Hrows.
  destruct (List.find (matches env pk0 rid)
              (instances t (rows_of (database (serve env (DeleteRecord t rid) w).2) t)))
    as [next|] eqn:Hnext.
  - by rewrite (read_item_healthy env t _ Hknown' Hidle' Hmapped rid pk0 rest Hdecl
                  next Hget Hnext).
  - by rewrite (read_item_missing env t _ Hknown' Hidle' Hmapped rid pk0 rest Hdecl
                  Hget Hnext).
Qed.

Lemma delete_then_get_witness :
  (serve Demo.env (GetRecord "products" "1")
     (serve Demo.env (DeleteRecord "products" "1") Demo.up).2).1
  = HttpResponse 404 (Detail "Record not found in 'products' with product_id=1")
  /\ status (serve Demo.env (GetRecord "order_details" "1")
               (serve Demo.env (DeleteRecord "order_details" "1") Demo.up).2).1 = 200.
Proof.
  assert (Hproducts : "products" ∈ AVAILABLE_TABLES Demo.up).
  { apply (bool_decide_unpack _). by vm_compute. }
  assert (Hdetails : "order_details" ∈ AVAILABLE_TABLES Demo.up).
  { apply (bool_decide_unpack _). by vm_compute. }
  assert (Hchai :
    List.find (matches Demo.env "product_id" "1")
      (instances "products" (rows_of (database Demo.up) "products"))
    = Some (mkItem "products" 0 Demo.chai)) by (by vm_compute).
  assert (Hdetail :
    List.find (matches Demo.env "order_id" "1")
      (instances "order_details" (rows_of (database Demo.up) "order_details"))
    = Some (mkItem "order_details" 0 (Demo.detail 1 1 10))) by (by vm_compute).
  split.
  - exact (delete_then_get Demo.env "products" "1" "product_id" [] Demo.up _
             Hproducts eq_refl eq_refl eq_refl (fun c _ => eq_refl)
             (fun c _ => eq_refl) Hchai).
  - rewrite (delete_then_get Demo.env "order_details" "1" "order_id" ["product_id"]
               Demo.up _ Hdetails eq_refl eq_refl eq_refl (fun c _ => eq_refl)
               (fun c _ => eq_refl) Hdetail).
    reflexivity.
Defined.



(** X16: an update or a delete of a record that does not exist (known
    table, class mapped, primary key declared, no row with [record_id] in
    the first key column) is answered 404 "Record not found"; the only calls
    made are the model resolution, the primary-key lookup and the query, so
    nothing is written, committed or rolled back. *)
Theorem write_to_missing_record (env : Env) (rq : request) (t pk0 : string)
    (rest : list string) (w : World) :
  by_identity rq = true ->
  read_only rq = false ->
  table_of rq = Some t ->
  t ∈ AVAILABLE_TABLES w ->
  pending w = [] ->
  automap_classes env t = true ->
  get_pk_constraint env t = Some (pk0 :: rest) ->
  fault env (Automap t) = None ->
  fault env (InspectPk t) = None ->
  fault env (QueryFirst t pk0 (record_id_of rq)) = None ->
  List.find (matches env pk0 (record_id_of rq))
    (instances t (rows_of (database w) t)) = None ->
  (serve env rq w).1
  = HttpResponse 404 (Detail ("Record not found in '" +:+ t +:+ "'"))
  /\ trace (serve env rq w).2
     = [QueryFirst t pk0 (record_id_of rq); InspectPk t; Automap t] ++ trace w
  /\ database (serve env rq w).2 = database w.
Proof.
  intros Hid Hwrite Ht Hknown Hidle Hmapped Hdecl Hf1 Hf2 Hf3 Hmissing.
  rewrite serve_response, serve_world.
  destruct rq as [ | |t'|t' skip limit|t' rid|t' item_data|t' rid item_data|t' rid];
    try discriminate Hid; try discriminate Hwrite;
    injection Ht as ->; cbn [dispatch record_id_of] in *.
  - rewrite update_item_wraps by done. unfold update_item_try.
    autorewrite with run. rewrite Hf1. cbv beta iota. rewrite Hmapped.
    autorewrite with run. rewrite Hf2, Hdecl. cbv beta iota delta [from_option id].
    autorewrite with run. rewrite Hf3. cbv beta iota.
    cbn [database log_call]. rewrite Hmissing. done.
  - rewrite delete_item_wraps by done. unfold delete_item_try.
    autorewrite with run. rewrite Hf1. cbv beta iota. rewrite Hmapped.
    autorewrite with run. rewrite Hf2, Hdecl. cbv beta iota delta [from_option id].
    autorewrite with run. rewrite Hf3. cbv beta iota.
    cbn [database log_call]. rewrite Hmissing. done.
Qed.

Lemma write_to_missing_record_witness :
  (serve Demo.env (DeleteRecord "products" "7") Demo.up).1
  = HttpResponse 404 (Detail "Record not found in 'products'")
  /\ database (serve Demo.env (DeleteRecord "products" "7") Demo.up).2
     = database Demo.up.
Proof.
  assert (Hknown : "products" ∈ AVAILABLE_TABLES Demo.up).
  { apply (bool_decide_unpack _). by vm_compute. }
  assert (Hmissing :
    List.find (matches Demo.env "product_id" "7")
      (instances "products" (rows_of (database Demo.up) "products")) = None)
    by (by vm_compute).
  destruct (write_to_missing_record Demo.env (DeleteRecord "products" "7")
              "products" "product_id" [] Demo.up
              eq_refl eq_refl eq_refl Hknown eq_refl eq_refl eq_refl
              eq_refl eq_refl eq_refl Hmissing) as (H404 & _ & Hdb).
  split; [exact H404 | exact Hdb].
Defined.
